(** * Avika AI engine: anomaly detection, RCA correlation and recommendations

    A shallow embedding of [ai-engine/main.py].  The module keeps three pieces
    of global state (the per-metric detector registry, the bounded log buffer
    and the Kafka producer) and reacts to two Kafka topics.

    Conventions of the embedding:
    - In the engine a Python [float] is an exact rational ([Q]): the values
      and the scores are taken finite.  The adapters keep what [float()]
      returns ([Py.PyFloat]): a finite value, an infinity or NaN, an int
      being rounded to the nearest binary64.
    - Python [str] is [string]; [str.lower] is lower-casing of the ASCII
      letters, which is all that matters for the needle ["error"].
    - [print] appends a structured line to [stdout].
    - An exception is a [Raise] result; the state reached when it is raised is
      kept, as the mutations of a Python program are. *)

From Stdlib Require Import QArith Lqa ZArith String Ascii List.
From stdpp Require Import gmap strings list.


(** ** Strings *)

(** [needle in hay] on Python strings. *)
Fixpoint str_in (needle hay : string) : bool :=
  String.prefix needle hay ||
  match hay with
  | EmptyString => false
  | String _ hay' => str_in needle hay'
  end.

Definition ascii_lower (c : ascii) : ascii :=
  let n := N_of_ascii c in
  if ((65 <=? n) && (n <=? 90))%N then ascii_of_N (n + 32) else c.

(** [s.lower()] *)
Fixpoint lower (s : string) : string :=
  match s with
  | EmptyString => EmptyString
  | String c s' => String (ascii_lower c) (lower s')
  end.

(** [int(x)] on a float: truncation towards zero. *)
Definition int_of_float (x : Q) : Z := Z.quot (Qnum x) (Z.pos (Qden x)).

(** [a > b] on floats. *)
Definition Qgtb (a b : Q) : bool := negb (Qle_bool a b).

(** ** Data *)

(** A parsed log record: the dict built by [parse_otlp_logs]. *)
Module LogRecord.
Record t := mk { timestamp : Z; severity : string; message : string }.
End LogRecord.

(** The dict returned by [generate_recommendation]. *)
Module Recommendation.
Record t := mk {
  id : Z;
  title : string;
  description : string;
  details : string;
  impact : string;
  category : string;
  confidence : Q;
  estimated_improvement : string;
  current_config : string;
  suggested_config : string;
  server : string;
  timestamp : Z }.
End Recommendation.

(** A Kafka message as [process_message] reads it. *)
Record Message := { topic : string; value : string }.

(** What the engine prints. *)
Inductive Line :=
| AlertLine (metric_name : string) (value score : Q)
| WarnLine (metric_name : string) (value score : Q)
| RcaHeader (metric_name : string) (value : Q)
| FoundLine (n : nat)
| ErrorLine (severity message : string)
| RecommendationLine (title : string)
| RcaFooter.

(** ** The log buffer: [deque(maxlen=LOG_BUFFER_SIZE)] *)

Definition LOG_BUFFER_SIZE : nat := 1000.

(** [deque.append] on a deque with a maximum length: the item goes to the
    right end, and an item is dropped from the left end when the length
    exceeds [maxlen]. *)
Definition deque_append {A} (maxlen : nat) (d : list A) (x : A) : list A :=
  let d' := d ++ [x] in
  if maxlen <? length d' then tail d' else d'.

(** ** Recommendation rules *)

Section Recommendations.

(** [format_float v] is the text that an f-string produces for [{value}]. *)
Variable format_float : Q -> string.

(** [now_id] and [now_ts] are the two readings of [time.time()]. *)
Definition generate_recommendation (now_id now_ts : Q)
    (metric_name : string) (value : Q) : option Recommendation.t :=
  let rec_id := int_of_float (now_id * 1000) in
  if str_in "request_time" metric_name || str_in "latency" metric_name then
    Some {|
      Recommendation.id := rec_id;
      Recommendation.title := "Enable Micro-Caching";
      Recommendation.description :=
        "High latency detected (" +:+ format_float value +:+
        "ms). Enable micro-caching to reduce upstream load.";
      Recommendation.details :=
        "Latency spike of " +:+ format_float value +:+
        "ms observed. Micro-caching for 1s can significantly reduce backend pressure without affecting freshness.";
      Recommendation.impact := "high";
      Recommendation.category := "Performance";
      Recommendation.confidence := 0.89;
      Recommendation.estimated_improvement := "-40% latency";
      Recommendation.current_config := "proxy_cache off;";
      Recommendation.suggested_config := "proxy_cache_valid 200 1s;";
      Recommendation.server := "nginx-prod-01";
      Recommendation.timestamp := int_of_float now_ts |}
  else if str_in "cpu" metric_name then
    Some {|
      Recommendation.id := rec_id;
      Recommendation.title := "Optimize Worker Connections";
      Recommendation.description :=
        "High CPU usage detected. Tune worker_connections to handle concurrency better.";
      Recommendation.details :=
        "CPU saturation indicates thread contention. Increasing worker_connections provided we have enough file descriptors.";
      Recommendation.impact := "medium";
      Recommendation.category := "Performance";
      Recommendation.confidence := 0.75;
      Recommendation.estimated_improvement := "+20% throughput";
      Recommendation.current_config := "worker_connections 1024;";
      Recommendation.suggested_config := "worker_connections 4096;";
      Recommendation.server := "nginx-prod-01";
      Recommendation.timestamp := int_of_float now_ts |}
  else None.

End Recommendations.

(** ** Root cause analysis: the scan of the log buffer *)

(** The condition of the list comprehension of [perform_rca]. *)
Definition is_error_log (l : LogRecord.t) : bool :=
  (String.eqb (LogRecord.severity l) "ERROR" || String.eqb (LogRecord.severity l) "FATAL")
  || str_in "error" (lower (LogRecord.message l)).

(** The loop over [reversed(error_logs)]: the lines it prints, from the set
    [shown_errors] and the counter [count] it has reached. *)
Fixpoint show_errors (logs : list LogRecord.t) (shown_errors : gset string)
    (count : nat) : list Line :=
  match logs with
  | [] => []
  | log :: logs' =>
      if bool_decide (LogRecord.message log ∈ shown_errors)
      then show_errors logs' shown_errors count
      else
        ErrorLine (LogRecord.severity log) (LogRecord.message log) ::
        (let shown_errors := {[LogRecord.message log]} ∪ shown_errors in
         let count := S count in
         if 5 <=? count then [] else show_errors logs' shown_errors count)
  end.

(** Everything [perform_rca] prints between its header and the
    recommendation. *)
Definition rca_lines (log_buffer : list LogRecord.t) : list Line :=
  let error_logs := List.filter is_error_log log_buffer in
  match error_logs with
  | [] => []
  | _ => FoundLine (length error_logs) :: show_errors (rev error_logs) ∅ 0
  end.

(** ** Effects: state and exceptions *)

Inductive Exception := KafkaError (what : string).

Inductive Result (A : Type) :=
| Ok (a : A)
| Raise (e : Exception).
Arguments Ok {A} a.
Arguments Raise {A} e.

(** A statement run from a state [St]: it returns or raises, and in both cases
    leaves a state behind. *)
Definition Eff (St A : Type) : Type := St → Result A * St.

#[global] Instance Eff_ret {St} : MRet (Eff St) := λ A a st, (Ok a, st).

#[global] Instance Eff_bind {St} : MBind (Eff St) := λ A B f m st,
  match m st with
  | (Ok a, st') => f a st'
  | (Raise e, st') => (Raise e, st')
  end.

(** [for x in l: body(x)] *)
Fixpoint for_each {St A} (l : list A) (body : A → Eff St unit) : Eff St unit :=
  match l with
  | [] => mret ()
  | x :: l' => body x ;; for_each l' body
  end.

(** ** The collaborators of the engine *)

(** River's anomaly detector, as [main.py] uses it: the constructor with its
    four keyword arguments, [score_one] and [learn_one] on the one feature
    ["val"].  [learn_one] updates the model in place: here it returns the
    updated model. *)
Class AnomalyDetector (Model : Type) := {
  HalfSpaceTrees (n_trees height window_size : nat) (seed : Z) : Model;
  score_one : Model → Q → Q;
  learn_one : Model → Q → Model }.

(** The Kafka producer: [send(topic, value)] and [flush()] may raise. *)
Class KafkaProducer (Producer : Type) := {
  send : Producer → string → Recommendation.t → Result unit * Producer;
  flush : Producer → Result unit * Producer }.

(** The OTLP adapters [parse_otlp_metrics] and [parse_otlp_logs] (total: they
    return the empty list on any failure), the wall clock ([time_time n] is
    the [n]-th reading of [time.time()]) and the formatting of a float in an
    f-string.  The adapters are taken on the documents of the data model:
    metric names, severities and messages are strs and values are finite.
    The functions of the source pass any value of the document through:
    they are embedded in [Otlp] below, and [OtlpFacts.engine_sample] and
    [OtlpFacts.typed_log] give the view taken here.  On a name or a message
    that is not a str the engine raises ([TypeError], [AttributeError]),
    which is not modelled: what is stated of the engine below is stated of
    the documents of the data model. *)
Class Environment := {
  parse_otlp_metrics : string → list (string * Q);
  parse_otlp_logs : string → list LogRecord.t;
  time_time : nat → Q;
  format_float : Q → string }.

(** ** The global state of [main.py] *)

Record Engine (Model Producer : Type) := mkEngine {
  detectors : gmap string Model;
  log_buffer : list LogRecord.t;
  producer : Producer;
  stdout : list Line;
  clock : nat }.
Arguments mkEngine {Model Producer}.
Arguments detectors {Model Producer}.
Arguments log_buffer {Model Producer}.
Arguments producer {Model Producer}.
Arguments stdout {Model Producer}.
Arguments clock {Model Producer}.

Section EngineCode.

Context {Model Producer : Type}.
Context `{!AnomalyDetector Model, !KafkaProducer Producer, !Environment}.

#[local] Abbreviation State := (Engine Model Producer).

(** The object that the factory of the [defaultdict] builds. *)
Definition new_detector : Model := HalfSpaceTrees 10 8 200 42.

(** The module level: no detector, an empty buffer, nothing printed. *)
Definition initial (p : Producer) : State :=
  mkEngine ∅ [] p [] 0.

Definition print (l : Line) : Eff State unit := λ st,
  (Ok (), mkEngine (detectors st) (log_buffer st) (producer st)
                   (stdout st ++ [l]) (clock st)).

(** [detectors[metric_name]] on the [defaultdict]: a missing key is first
    given the object of the factory. *)
Definition detectors_getitem (metric_name : string) : Eff State Model := λ st,
  match detectors st !! metric_name with
  | Some model => (Ok model, st)
  | None =>
      (Ok new_detector,
       mkEngine (<[metric_name := new_detector]> (detectors st))
                (log_buffer st) (producer st) (stdout st) (clock st))
  end.

(** The registry holds the object that [learn_one] mutates. *)
Definition detectors_update (metric_name : string) (model : Model) : Eff State unit := λ st,
  (Ok (), mkEngine (<[metric_name := model]> (detectors st))
                   (log_buffer st) (producer st) (stdout st) (clock st)).

Definition get_log_buffer : Eff State (list LogRecord.t) := λ st,
  (Ok (log_buffer st), st).

Definition log_buffer_append (log : LogRecord.t) : Eff State unit := λ st,
  (Ok (), mkEngine (detectors st)
                   (deque_append LOG_BUFFER_SIZE (log_buffer st) log)
                   (producer st) (stdout st) (clock st)).

Definition producer_send (topic : string) (rec : Recommendation.t) : Eff State unit := λ st,
  let '(r, p) := send (producer st) topic rec in
  (r, mkEngine (detectors st) (log_buffer st) p (stdout st) (clock st)).

Definition producer_flush : Eff State unit := λ st,
  let '(r, p) := flush (producer st) in
  (r, mkEngine (detectors st) (log_buffer st) p (stdout st) (clock st)).

(** The call of [generate_recommendation]: it reads the clock once for the
    id, and once more for the timestamp when a rule matches. *)
Definition call_generate_recommendation (metric_name : string) (value : Q)
    : Eff State (option Recommendation.t) := λ st,
  let rec := generate_recommendation format_float
               (time_time (clock st)) (time_time (S (clock st)))
               metric_name value in
  (Ok rec, mkEngine (detectors st) (log_buffer st) (producer st) (stdout st)
                    (clock st + match rec with Some _ => 2 | None => 1 end)).

Definition perform_rca (metric_name : string) (value : Q) : Eff State unit :=
  print (RcaHeader metric_name value) ;;
  log_buffer ← get_log_buffer ;
  for_each (rca_lines log_buffer) print ;;
  rec ← call_generate_recommendation metric_name value ;
  match rec with
  | Some rec =>
      print (RecommendationLine (Recommendation.title rec)) ;;
      producer_send "optimization-recommendations" rec ;;
      producer_flush
  | None => mret ()
  end ;;
  print RcaFooter.

(** The body of the loop over the metrics of a message. *)
Definition process_metric (sample : string * Q) : Eff State unit :=
  let '(metric_name, value) := sample in
  model ← detectors_getitem metric_name ;
  let score := score_one model value in
  detectors_update metric_name (learn_one model value) ;;
  if Qgtb score 0.8 then
    print (AlertLine metric_name value score) ;;
    perform_rca metric_name value
  else if Qgtb score 0.5 then
    print (WarnLine metric_name value score)
  else mret ().

Definition process_message (message : Message) : Eff State unit :=
  if String.eqb (topic message) "telemetry-metrics" then
    let metrics := parse_otlp_metrics (value message) in
    for_each metrics process_metric
  else if String.eqb (topic message) "telemetry-logs" then
    let logs := parse_otlp_logs (value message) in
    for_each logs log_buffer_append
  else mret ().

(** The loop of [main] over the messages that the consumer delivers. *)
Definition main_loop (messages : list Message) : Eff State unit :=
  for_each messages process_message.

End EngineCode.

(** ** The detector: half-space trees *)

Module HST.

(** Modelled from the spec: River's [anomaly.HalfSpaceTrees] is a library and
    is not part of the sources; this is the scorer that section 4.2 of the
    specification describes.  A node, internal or leaf, carries a
    reference-window count and a current-window count. *)
Inductive Tree :=
| Leaf (reference current : nat)
| Split (threshold : Q) (reference current : nat) (below above : Tree).

(** Modelled from the spec: the state of one model, its hyperparameters, the
    samples learned since the last rotation and the number of rotations. *)
Record Model := mkModel {
  n_trees : nat;
  height : nat;
  window_size : nat;
  trees : list Tree;
  counter : nat;
  rotations : nat }.

(** Modelled from the spec: the term [reference_count / 2^depth]. *)
Definition term (count depth : nat) : Q :=
  (inject_Z (Z.of_nat count) / inject_Z (Z.of_nat (2 ^ depth)))%Q.

(** Modelled from the spec: the path of a value goes below a node when the
    value is under the threshold, above it otherwise; the mass of a tree is
    the sum of the terms of the visited nodes. *)
Fixpoint mass (t : Tree) (x : Q) (depth : nat) : Q :=
  match t with
  | Leaf r _ => term r depth
  | Split s r _ below above =>
      (term r depth + mass (if Qgtb s x then below else above) x (S depth))%Q
  end.

(** Modelled from the spec: learning adds one to the current-window count of
    every visited node. *)
Fixpoint learn_tree (x : Q) (t : Tree) : Tree :=
  match t with
  | Leaf r c => Leaf r (S c)
  | Split s r c below above =>
      if Qgtb s x
      then Split s r (S c) (learn_tree x below) above
      else Split s r (S c) below (learn_tree x above)
  end.

(** Modelled from the spec: the rotation copies the current-window count of
    every node into its reference-window count and resets the former. *)
Fixpoint rotate_tree (t : Tree) : Tree :=
  match t with
  | Leaf _ c => Leaf c 0
  | Split s _ c below above => Split s c 0 (rotate_tree below) (rotate_tree above)
  end.

(** Modelled from the spec: the largest mass that one tree can give, a full
    reference window on each of the [height + 1] levels. *)
Fixpoint level_sum (window_size depth levels : nat) : Q :=
  match levels with
  | 0 => 0%Q
  | S levels' => (term window_size depth + level_sum window_size (S depth) levels')%Q
  end.

Definition max_mass (m : Model) : Q :=
  (inject_Z (Z.of_nat (n_trees m)) * level_sum (window_size m) 0 (S (height m)))%Q.

Definition total_mass (m : Model) (x : Q) : Q :=
  fold_right (λ t acc, mass t x 0 + acc)%Q 0%Q (trees m).

(** Modelled from the spec: the score is 0 until a rotation has occurred;
    afterwards the summed mass is divided by its maximum, and a low mass
    gives a high score. *)
Definition score (m : Model) (x : Q) : Q :=
  if rotations m =? 0 then 0%Q else (1 - total_mass m x / max_mass m)%Q.

(** Modelled from the spec: every [window_size] learned samples all nodes of
    all trees are rotated together. *)
Definition learn (m : Model) (x : Q) : Model :=
  let ts := map (learn_tree x) (trees m) in
  let n := S (counter m) in
  if n =? window_size m
  then mkModel (n_trees m) (height m) (window_size m)
               (map rotate_tree ts) 0 (S (rotations m))
  else mkModel (n_trees m) (height m) (window_size m) ts n (rotations m).

Section Construction.

(** The seeded generator: [rng_draw g lo hi] is a split point of the range
    from [lo] to [hi] and the next state of the generator.  [range_lo] and
    [range_hi] bound the working range of the feature. *)
Variable Rng : Type.
Variable rng_seed : Z → Rng.
Variable rng_draw : Rng → Q → Q → Q * Rng.
Variables range_lo range_hi : Q.

(** Modelled from the spec: a tree of the given height, its split points
    drawn from the generator, all counts zero. *)
Fixpoint build (h : nat) (lo hi : Q) (g : Rng) : Tree * Rng :=
  match h with
  | 0 => (Leaf 0 0, g)
  | S h' =>
      let '(s, g1) := rng_draw g lo hi in
      let '(below, g2) := build h' lo s g1 in
      let '(above, g3) := build h' s hi g2 in
      (Split s 0 0 below above, g3)
  end.

Fixpoint build_trees (n h : nat) (g : Rng) : list Tree :=
  match n with
  | 0 => []
  | S n' => let '(t, g') := build h range_lo range_hi g in t :: build_trees n' h g'
  end.

(** Modelled from the spec: the trees are built once, at construction, from
    the generator seeded with [seed]. *)
Definition create (n_trees height window_size : nat) (seed : Z) : Model :=
  mkModel n_trees height window_size
          (build_trees n_trees height (rng_seed seed)) 0 0.

Definition detector : AnomalyDetector Model :=
  {| HalfSpaceTrees := create; score_one := score; learn_one := learn |}.

End Construction.

(** A linear congruential generator, to run the model. *)
Definition lcg_seed (seed : Z) : Z := seed mod 2147483648.

Definition lcg_draw (g : Z) (lo hi : Q) : Q * Z :=
  let g' := ((1103515245 * g + 12345) mod 2147483648)%Z in
  (Qred (lo + (hi - lo) * (inject_Z g' / 2147483648))%Q, g').

Definition lcg_detector : AnomalyDetector Model :=
  detector Z lcg_seed lcg_draw 0 1.

End HST.

(** * Properties *)

(** ** Substrings *)

Lemma prefix_append (n b : string) : String.prefix n (n +:+ b) = true.
Proof.
  induction n as [|c n IH]; simpl.
  - by destruct b.
  - destruct (ascii_dec c c); [exact IH | congruence].
Qed.

Lemma prefix_inv (n h : string) :
  String.prefix n h = true → ∃ b, h = n +:+ b.
Proof.
  revert h. induction n as [|c n IH]; intros h Hp.
  - by exists h.
  - destruct h as [|c' h]; simpl in Hp; [discriminate|].
    destruct (ascii_dec c c') as [->|]; [|discriminate].
    destruct (IH _ Hp) as [b ->]. by exists b.
Qed.

(** [str_in] decides the substring relation. *)
Lemma str_in_spec (n h : string) :
  str_in n h = true ↔ ∃ a b, h = a +:+ n +:+ b.
Proof.
  split.
  - induction h as [|c h IH]; intros H; cbn [str_in] in H.
    + rewrite orb_false_r in H. destruct (prefix_inv _ _ H) as [b ->].
      by exists EmptyString, b.
    + apply orb_true_iff in H as [H|H].
      * destruct (prefix_inv _ _ H) as [b Hb]. by exists EmptyString, b.
      * destruct (IH H) as (a & b & ->). by exists (String c a), b.
  - intros (a & b & ->). induction a as [|c a IH].
    + change (EmptyString +:+ n +:+ b) with (n +:+ b).
      destruct (n +:+ b) eqn:E; cbn [str_in]; rewrite <- E;
        by rewrite prefix_append.
    + change (String c a +:+ n +:+ b) with (String c (a +:+ n +:+ b)).
      cbn [str_in]. rewrite IH. apply orb_true_r.
Qed.

Lemma str_in_interpolated (pre v post : string) :
  str_in v (pre +:+ v +:+ post) = true.
Proof. apply str_in_spec. by exists pre, post. Qed.

(** ** The recommendation rules *)

Section RecommendationFacts.

Variable fmt : Q → string.
Variables now_id now_ts : Q.

(** The first rule: the name mentions the request time or the latency. *)
Definition latency_rule (metric_name : string) : bool :=
  str_in "request_time" metric_name || str_in "latency" metric_name.

(** The second rule. *)
Definition cpu_rule (metric_name : string) : bool :=
  str_in "cpu" metric_name.

Lemma generate_latency metric_name value :
  latency_rule metric_name = true →
  ∃ rec, generate_recommendation fmt now_id now_ts metric_name value = Some rec
    ∧ Recommendation.title rec = "Enable Micro-Caching"
    ∧ Recommendation.category rec = "Performance"
    ∧ Recommendation.impact rec = "high"
    ∧ Recommendation.confidence rec = 0.89%Q
    ∧ Recommendation.description rec =
        "High latency detected (" +:+ fmt value +:+
        "ms). Enable micro-caching to reduce upstream load."
    ∧ Recommendation.details rec =
        "Latency spike of " +:+ fmt value +:+
        "ms observed. Micro-caching for 1s can significantly reduce backend pressure without affecting freshness.".
Proof.
  unfold latency_rule, generate_recommendation. intros ->.
  eexists. split; [reflexivity|]. simpl. auto 10.
Qed.

Lemma generate_cpu metric_name value :
  latency_rule metric_name = false →
  cpu_rule metric_name = true →
  ∃ rec, generate_recommendation fmt now_id now_ts metric_name value = Some rec
    ∧ Recommendation.title rec = "Optimize Worker Connections"
    ∧ Recommendation.category rec = "Performance"
    ∧ Recommendation.impact rec = "medium"
    ∧ Recommendation.confidence rec = 0.75%Q
    ∧ Recommendation.description rec =
        "High CPU usage detected. Tune worker_connections to handle concurrency better."
    ∧ Recommendation.details rec =
        "CPU saturation indicates thread contention. Increasing worker_connections provided we have enough file descriptors.".
Proof.
  unfold latency_rule, cpu_rule, generate_recommendation. intros -> ->.
  eexists. split; [reflexivity|]. simpl. auto 10.
Qed.

Lemma generate_none metric_name value :
  latency_rule metric_name = false →
  cpu_rule metric_name = false →
  generate_recommendation fmt now_id now_ts metric_name value = None.
Proof.
  unfold latency_rule, cpu_rule, generate_recommendation. by intros -> ->.
Qed.

(** C6: a name that mentions the request time or the latency gives a
    recommendation of category Performance, impact high and confidence 0.89;
    otherwise a name that mentions the cpu gives one of impact medium and
    confidence 0.75; any other name gives none (the function is total, it
    never raises).  The three examples of the specification follow. *)
Theorem generate_recommendation_rules :
  (∀ metric_name value,
     latency_rule metric_name = true →
     ∃ rec, generate_recommendation fmt now_id now_ts metric_name value = Some rec
       ∧ Recommendation.category rec = "Performance"
       ∧ Recommendation.impact rec = "high"
       ∧ Recommendation.confidence rec = 0.89%Q)
  ∧ (∀ metric_name value,
     latency_rule metric_name = false → cpu_rule metric_name = true →
     ∃ rec, generate_recommendation fmt now_id now_ts metric_name value = Some rec
       ∧ Recommendation.impact rec = "medium"
       ∧ Recommendation.confidence rec = 0.75%Q)
  ∧ (∀ metric_name value,
     latency_rule metric_name = false → cpu_rule metric_name = false →
     generate_recommendation fmt now_id now_ts metric_name value = None)
  ∧ (∃ rec, generate_recommendation fmt now_id now_ts "nginx_request_time_ms" 450 = Some rec
       ∧ Recommendation.category rec = "Performance"
       ∧ Recommendation.impact rec = "high")
  ∧ (∃ rec, generate_recommendation fmt now_id now_ts "node_cpu_usage" 95 = Some rec
       ∧ Recommendation.impact rec = "medium")
  ∧ generate_recommendation fmt now_id now_ts "disk_free_bytes" 10 = None.
Proof.
  split_and!.
  - intros n v H. destruct (generate_latency n v H) as (rec & ? & ? & ? & ? & ? & _).
    by exists rec.
  - intros n v H1 H2.
    destruct (generate_cpu n v H1 H2) as (rec & ? & ? & ? & ? & ? & _).
    by exists rec.
  - apply generate_none.
  - eexists. split; [reflexivity|]. by simpl.
  - eexists. split; [reflexivity|]. by simpl.
  - reflexivity.
Qed.

(** C3, as the code has it: the latency template interpolates the formatted
    value into the description and the details; the cpu template is a pair
    of fixed texts, the same for every value. *)
Theorem latency_template_interpolates_value :
  (∀ metric_name value rec,
     latency_rule metric_name = true →
     generate_recommendation fmt now_id now_ts metric_name value = Some rec →
     str_in (fmt value) (Recommendation.description rec) = true
     ∧ str_in (fmt value) (Recommendation.details rec) = true)
  ∧ (∀ metric_name value rec,
     latency_rule metric_name = false →
     generate_recommendation fmt now_id now_ts metric_name value = Some rec →
     Recommendation.description rec =
       "High CPU usage detected. Tune worker_connections to handle concurrency better."
     ∧ Recommendation.details rec =
       "CPU saturation indicates thread contention. Increasing worker_connections provided we have enough file descriptors.").
Proof.
  split.
  - intros n v rec H Hg.
    destruct (generate_latency n v H) as (rec' & Hg' & _ & _ & _ & _ & Hd & Ht).
    assert (rec' = rec) as -> by congruence.
    rewrite Hd, Ht. split; apply str_in_interpolated.
  - intros n v rec H Hg. destruct (cpu_rule n) eqn:Hc.
    + destruct (generate_cpu n v H Hc) as (rec' & Hg' & _ & _ & _ & _ & Hd & Ht).
      by assert (rec' = rec) as -> by congruence.
    + rewrite (generate_none n v H Hc) in Hg. discriminate.
Qed.

End RecommendationFacts.

(** The formatting of the two values of the examples: the text that Python
    prints for 450.0 and for 95.0. *)
Definition fmt_example (v : Q) : string :=
  if Qeq_bool v 450 then "450.0" else "95.0".

Lemma generate_recommendation_rules_witness :
  (∃ rec, generate_recommendation fmt_example 1 1 "upstream_latency" 450 = Some rec
     ∧ Recommendation.category rec = "Performance"
     ∧ Recommendation.impact rec = "high"
     ∧ Recommendation.confidence rec = 0.89%Q)
  ∧ (∃ rec, generate_recommendation fmt_example 1 1 "cpu_busy" 95 = Some rec
     ∧ Recommendation.impact rec = "medium"
     ∧ Recommendation.confidence rec = 0.75%Q)
  ∧ generate_recommendation fmt_example 1 1 "disk_free_bytes" 10 = None.
Proof.
  destruct (generate_recommendation_rules fmt_example 1 1) as (H1 & H2 & H3 & _).
  split_and!.
  - apply H1. reflexivity.
  - apply H2; reflexivity.
  - apply H3; reflexivity.
Defined.

Lemma latency_template_interpolates_value_witness :
  ∃ rec, generate_recommendation fmt_example 1 1 "nginx_request_time_ms" 450 = Some rec
    ∧ str_in "450.0" (Recommendation.description rec) = true
    ∧ str_in "450.0" (Recommendation.details rec) = true.
Proof.
  eexists. split; [reflexivity|].
  apply (proj1 (latency_template_interpolates_value fmt_example 1 1)
           "nginx_request_time_ms" 450%Q); reflexivity.
Defined.

(** C3 as stated fails on the cpu template: for the value 95.0, printed
    "95.0", neither text of the recommendation mentions it. *)
Lemma cpu_template_ignores_value :
  ¬ (∀ (fmt : Q → string) (now_id now_ts : Q) metric_name value rec,
       generate_recommendation fmt now_id now_ts metric_name value = Some rec →
       str_in (fmt value) (Recommendation.description rec) = true
       ∧ str_in (fmt value) (Recommendation.details rec) = true).
Proof.
  intros H.
  destruct (H fmt_example 1%Q 1%Q "node_cpu_usage" 95%Q _ eq_refl) as [Hd _].
  vm_compute in Hd. discriminate.
Qed.

(** ** The scan of the log buffer *)

(** The scan as the specification words it: among the records of a list, the
    first one of each message text, in the order of the list. *)
Fixpoint first_occurrences (l : list LogRecord.t) : list LogRecord.t :=
  match l with
  | [] => []
  | x :: l' =>
      x :: List.filter
             (λ y, negb (String.eqb (LogRecord.message y) (LogRecord.message x)))
             (first_occurrences l')
  end.












(** ... and it is the first one of the list that it keeps. *)
Lemma first_occurrences_first pre x post :
  LogRecord.message x ∉ map LogRecord.message pre →
  x ∈ first_occurrences (pre ++ x :: post).
Proof.
  induction pre as [|y pre IH]; cbn [app first_occurrences map]; intros Hx.
  - apply list_elem_of_here.
  - apply not_elem_of_cons in Hx as [Hne Hx]. apply list_elem_of_further.
    rewrite list_elem_of_In, filter_In, <- list_elem_of_In. split; [by apply IH|].
    by destruct (String.eqb_spec (LogRecord.message x) (LogRecord.message y)).
Qed.

(** *** Letter case *)






(** [lower] turns the capital letters A to Z into the small ones and keeps
    every other character. *)
Lemma ascii_lower_spec (c : ascii) :
  let n := N_of_ascii c in
  N_of_ascii (ascii_lower c) = if ((65 <=? n) && (n <=? 90))%N then (n + 32)%N else n.
Proof.
  cbn zeta. unfold ascii_lower.
  destruct ((65 <=? N_of_ascii c)%N && (N_of_ascii c <=? 90)%N) eqn:E; [|done].
  apply andb_true_iff in E as [_ E%N.leb_le].
  rewrite N_ascii_embedding; [done | lia].
Qed.






(** ** The bounded log buffer *)

Lemma deque_append_drop {A} (maxlen : nat) (d : list A) (x : A) :
  length d ≤ maxlen →
  deque_append maxlen d x = drop (length (d ++ [x]) - maxlen) (d ++ [x]).
Proof.
  intros Hd. unfold deque_append. rewrite length_app. cbn [length].
  destruct (maxlen <? length d + 1) eqn:E.
  - apply Nat.ltb_lt in E. replace (length d + 1 - maxlen) with 1 by lia.
    by destruct (d ++ [x]).
  - apply Nat.ltb_ge in E. by replace (length d + 1 - maxlen) with 0 by lia.
Qed.

Lemma deque_append_length {A} (maxlen : nat) (d : list A) (x : A) :
  length d ≤ maxlen → length (deque_append maxlen d x) ≤ maxlen.
Proof.
  intros Hd. rewrite deque_append_drop by done.
  rewrite length_drop, length_app. cbn [length]. lia.
Qed.

(** A deque that has received the items [xs] holds the last [maxlen] of
    what it held and received, in the order of arrival. *)
Lemma deque_appends {A} (maxlen : nat) (xs d : list A) :
  length d ≤ maxlen →
  fold_left (deque_append maxlen) xs d
  = drop (length (d ++ xs) - maxlen) (d ++ xs).
Proof.
  revert d. induction xs as [|x xs IH]; intros d Hd.
  - cbn [fold_left]. rewrite app_nil_r.
    by replace (length d - maxlen) with 0 by lia.
  - cbn [fold_left]. rewrite IH by by apply deque_append_length.
    rewrite deque_append_drop by done.
    replace (d ++ x :: xs) with ((d ++ [x]) ++ xs) by by rewrite <- app_assoc.
    set (e := d ++ [x]). assert (length e = S (length d)) as He.
    { unfold e. rewrite length_app. cbn [length]. lia. }
    rewrite !length_app, length_drop.
    destruct (decide (length e ≤ maxlen)) as [Hle|Hgt].
    + replace (length e - maxlen) with 0 by lia. rewrite drop_0.
      f_equal. lia.
    + assert (length e - maxlen = 1) as -> by lia.
      destruct e as [|y e]; [cbn [length] in He; lia|].
      cbn [length] in *. cbn [drop app].
      replace (S (length e) + length xs - maxlen) with (S (length xs)) by lia.
      replace (S (length e) - 1 + length xs - maxlen) with (length xs) by lia.
      done.
Qed.

Lemma deque_appends_length {A} (maxlen : nat) (xs d : list A) :
  length d ≤ maxlen → length (fold_left (deque_append maxlen) xs d) ≤ maxlen.
Proof.
  revert d. induction xs as [|x xs IH]; intros d Hd; [done|].
  cbn [fold_left]. by apply IH, deque_append_length.
Qed.

(** ** The engine *)

Lemma for_each_cons {St A} (x : A) (l : list A) (body : A → Eff St unit) (st : St) :
  for_each (x :: l) body st =
  match body x st with
  | (Ok _, st') => for_each l body st'
  | (Raise e, st') => (Raise e, st')
  end.
Proof. reflexivity. Qed.

(** An exception in the body ends the loop: the items after it are not
    visited. *)
Lemma for_each_raise {St A} (x : A) (l : list A) (body : A → Eff St unit) (st : St) e :
  fst (body x st) = Raise e → for_each (x :: l) body st = body x st.
Proof. rewrite for_each_cons. destruct (body x st) as [[]]; simpl; congruence. Qed.

(** What the body keeps true in every outcome, the loop keeps true. *)
Lemma for_each_invariant {St A} (P : St → Prop) (body : A → Eff St unit) (l : list A) :
  (∀ x st, P st → P (snd (body x st))) →
  ∀ st, P st → P (snd (for_each l body st)).
Proof.
  intros Hbody. induction l as [|x l IH]; intros st Hst; [done|].
  rewrite for_each_cons. specialize (Hbody x st Hst).
  destruct (body x st) as [[]]; simpl in *; auto.
Qed.

(** A body that never raises gives a loop that never raises. *)
Lemma for_each_ok {St A} (body : A → Eff St unit) (l : list A) :
  (∀ x st, fst (body x st) = Ok ()) → ∀ st, fst (for_each l body st) = Ok ().
Proof.
  intros Hbody. induction l as [|x l IH]; intros st; [done|].
  rewrite for_each_cons. specialize (Hbody x st).
  destruct (body x st) as [[[]|]]; simpl in *; [auto | discriminate].
Qed.

(** Two lists of lines built with [++] in different groupings. *)
Ltac same_lines :=
  unfold print; cbn [detectors log_buffer producer stdout clock];
  rewrite ?app_nil_r;
  repeat rewrite <- app_assoc; cbn [app]; repeat rewrite <- app_assoc;
  reflexivity.

(** The tiers as the specification words them. *)
Inductive Tier := NORMAL | WARNING | ALERT.

Definition classify (score anomaly_threshold warning_threshold : Q) : Tier :=
  if Qgtb score anomaly_threshold then ALERT
  else if Qgtb score warning_threshold then WARNING
  else NORMAL.

Section EngineFacts.

Context {Model Producer : Type}.
Context `{!AnomalyDetector Model, !KafkaProducer Producer, !Environment}.

#[local] Abbreviation State := (Engine Model Producer).

(** The model that [detectors[metric_name]] gives in a state. *)
Definition model_of (st : State) (metric_name : string) : Model :=
  default new_detector (detectors st !! metric_name).

Lemma for_each_print (ls : list Line) (st : State) :
  for_each ls print st =
  (Ok (), mkEngine (detectors st) (log_buffer st) (producer st)
                   (stdout st ++ ls) (clock st)).
Proof.
  revert st. induction ls as [|l ls IH]; intros st.
  - cbn. rewrite app_nil_r. by destruct st.
  - rewrite for_each_cons. cbn [print]. rewrite IH. cbn. by rewrite <- app_assoc.
Qed.

(** The state in which [perform_rca] reaches the producer, and the one in
    which it returns. *)
Definition rca_reported (metric_name : string) (value : Q) (st : State)
    (rec : option Recommendation.t) : State :=
  mkEngine (detectors st) (log_buffer st) (producer st)
    (stdout st ++ RcaHeader metric_name value :: rca_lines (log_buffer st) ++
       match rec with
       | Some rec => [RecommendationLine (Recommendation.title rec)]
       | None => []
       end)
    (clock st + match rec with Some _ => 2 | None => 1 end).

Definition with_producer (st : State) (p : Producer) : State :=
  mkEngine (detectors st) (log_buffer st) p (stdout st) (clock st).

Definition with_line (st : State) (l : Line) : State :=
  mkEngine (detectors st) (log_buffer st) (producer st) (stdout st ++ [l]) (clock st).

Lemma perform_rca_unfold metric_name value (st : State) :
  let rec := generate_recommendation format_float (time_time (clock st))
               (time_time (S (clock st))) metric_name value in
  let st1 := rca_reported metric_name value st rec in
  perform_rca metric_name value st =
  match rec with
  | None => (Ok (), with_line st1 RcaFooter)
  | Some r =>
      match send (producer st) "optimization-recommendations" r with
      | (Raise e, p) => (Raise e, with_producer st1 p)
      | (Ok _, p) =>
          match flush p with
          | (Raise e, p') => (Raise e, with_producer st1 p')
          | (Ok _, p') => (Ok (), with_line (with_producer st1 p') RcaFooter)
          end
      end
  end.
Proof.
  intros rec st1. unfold perform_rca.
  unfold mbind, Eff_bind. cbn [print get_log_buffer]. rewrite for_each_print.
  cbn [call_generate_recommendation detectors log_buffer producer stdout clock].
  fold rec. unfold st1, rca_reported. clearbody rec. destruct rec as [r|].
  - unfold producer_send, producer_flush, with_producer, with_line.
    cbn [detectors log_buffer producer stdout clock].
    destruct (send _ _ _) as [[[]|e] p];
      cbn [detectors log_buffer producer stdout clock];
      [destruct (flush p) as [[[]|e] p']|];
      same_lines.
  - unfold with_line. cbn [mret Eff_ret]. same_lines.
Qed.

Lemma Qgtb_true (a b : Q) : Qgtb a b = true ↔ (b < a)%Q.
Proof.
  unfold Qgtb. rewrite negb_true_iff, <- not_true_iff_false, Qle_bool_iff.
  split; [apply Qnot_le_lt | apply Qlt_not_le].
Qed.

Lemma Qgtb_false (a b : Q) : Qgtb a b = false ↔ (a <= b)%Q.
Proof. unfold Qgtb. by rewrite negb_false_iff, Qle_bool_iff. Qed.

(** The state after the three statements on the model: the registry holds,
    for the metric, the model it gave with the sample learned. *)
Definition learned (st : State) (metric_name : string) (value : Q) : State :=
  mkEngine (<[metric_name := learn_one (model_of st metric_name) value]> (detectors st))
           (log_buffer st) (producer st) (stdout st) (clock st).

Lemma process_metric_unfold metric_name value (st : State) :
  let score := score_one (model_of st metric_name) value in
  let st1 := learned st metric_name value in
  process_metric (metric_name, value) st =
  if Qgtb score 0.8 then
    perform_rca metric_name value (with_line st1 (AlertLine metric_name value score))
  else if Qgtb score 0.5 then
    (Ok (), with_line st1 (WarnLine metric_name value score))
  else (Ok (), st1).
Proof.
  intros score st1. unfold process_metric, mbind, Eff_bind, detectors_getitem.
  unfold score, st1, learned, model_of.
  destruct (detectors st !! metric_name) as [model|] eqn:E;
    cbn [default detectors_update detectors log_buffer producer stdout clock];
    rewrite ?insert_insert_eq;
    repeat (destruct (Qgtb _ _)); reflexivity.
Qed.

(** [perform_rca] reads the registry and the buffer, and writes to neither. *)
Lemma perform_rca_frame metric_name value (st : State) :
  detectors (snd (perform_rca metric_name value st)) = detectors st
  ∧ log_buffer (snd (perform_rca metric_name value st)) = log_buffer st.
Proof.
  rewrite perform_rca_unfold.
  destruct (generate_recommendation _ _ _ _ _) as [r|]; [|done].
  destruct (send _ _ _) as [[[]|e] p]; [|done].
  by destruct (flush p) as [[[]|e] p'].
Qed.

(** One sample: the buffer is as it was, and the registry has learned the
    sample for its metric, whatever the outcome. *)
Lemma process_metric_frame metric_name value (st : State) :
  log_buffer (snd (process_metric (metric_name, value) st)) = log_buffer st
  ∧ detectors (snd (process_metric (metric_name, value) st))
    = <[metric_name := learn_one (model_of st metric_name) value]> (detectors st).
Proof.
  rewrite process_metric_unfold.
  destruct (Qgtb _ 0.8); [|by destruct (Qgtb _ 0.5)].
  by destruct (perform_rca_frame metric_name value
    (with_line (learned st metric_name value)
       (AlertLine metric_name value (score_one (model_of st metric_name) value))))
    as [-> ->].
Qed.

Lemma process_metrics_log_buffer metrics (st : State) :
  log_buffer (snd (for_each metrics process_metric st)) = log_buffer st.
Proof.
  apply (for_each_invariant (λ st', log_buffer st' = log_buffer st)); [|done].
  intros [n v] st' <-. apply process_metric_frame.
Qed.

(** The loop over the records of a logs message: it never raises and changes
    the buffer only. *)
Lemma append_logs_unfold logs (st : State) :
  for_each logs log_buffer_append st =
  (Ok (), mkEngine (detectors st)
            (fold_left (deque_append LOG_BUFFER_SIZE) logs (log_buffer st))
            (producer st) (stdout st) (clock st)).
Proof.
  revert st. induction logs as [|l logs IH]; intros st.
  - by destruct st.
  - rewrite for_each_cons. cbn [log_buffer_append]. by rewrite IH.
Qed.

(** C10: a message of the metrics topic leaves the log buffer as it was; a
    message of the logs topic leaves the registry as it was, no model changed
    and none created (it changes the buffer and nothing else). *)
Theorem process_message_pathways_disjoint message (st : State) :
  let st' := snd (process_message message st) in
  (topic message = "telemetry-metrics" → log_buffer st' = log_buffer st)
  ∧ (topic message = "telemetry-logs" →
     detectors st' = detectors st ∧ producer st' = producer st
     ∧ stdout st' = stdout st ∧ clock st' = clock st).
Proof.
  unfold process_message. split.
  - intros ->. cbn. apply process_metrics_log_buffer.
  - intros ->. cbn. by rewrite append_logs_unfold.
Qed.

Lemma process_message_log_buffer_bounded message (st : State) :
  length (log_buffer st) ≤ LOG_BUFFER_SIZE →
  length (log_buffer (snd (process_message message st))) ≤ LOG_BUFFER_SIZE.
Proof.
  intros Hst. unfold process_message.
  destruct (String.eqb _ "telemetry-metrics").
  - by rewrite process_metrics_log_buffer.
  - destruct (String.eqb _ "telemetry-logs"); [|done].
    rewrite append_logs_unfold. by apply deque_appends_length.
Qed.

(** C5: the buffer never holds more than [LOG_BUFFER_SIZE] = 1000 records,
    whatever messages the engine has processed; a logs message appends its
    records in order, each append dropping the oldest record of a full
    buffer; and after B + k appends (k > 0) the buffer is the last B records
    in the order of arrival. *)
Theorem log_buffer_keeps_last_records :
  (∀ (p : Producer) messages,
     length (log_buffer (snd (main_loop messages (initial p)))) ≤ LOG_BUFFER_SIZE)
  ∧ (∀ message (st : State),
       topic message = "telemetry-logs" →
       log_buffer (snd (process_message message st)) =
       fold_left (deque_append LOG_BUFFER_SIZE)
         (parse_otlp_logs (value message)) (log_buffer st))
  ∧ (∀ (logs : list LogRecord.t) k,
       0 < k → length logs = LOG_BUFFER_SIZE + k →
       fold_left (deque_append LOG_BUFFER_SIZE) logs [] = drop k logs
       ∧ length (drop k logs) = LOG_BUFFER_SIZE).
Proof.
  split_and!.
  - intros p messages. unfold main_loop.
    apply (for_each_invariant (λ st, length (log_buffer st) ≤ LOG_BUFFER_SIZE)).
    + intros m st. apply process_message_log_buffer_bounded.
    + cbn. lia.
  - intros m st Hm. unfold process_message. rewrite Hm. cbn.
    by rewrite append_logs_unfold.
  - intros logs k Hk Hlen. rewrite deque_appends by (cbn; lia).
    cbn [app]. rewrite Hlen, length_drop, Hlen.
    split; [f_equal|]; lia.
Qed.

(** *** Alert tiers *)

(** With a score over 0.8 the sample is reported as an alert and
    [perform_rca] runs; otherwise nothing but a possible warning is printed. *)
Lemma process_metric_tiers metric_name value (st : State) :
  let score := score_one (model_of st metric_name) value in
  let st1 := learned st metric_name value in
  process_metric (metric_name, value) st =
  match classify score 0.8 0.5 with
  | ALERT =>
      perform_rca metric_name value
        (with_line st1 (AlertLine metric_name value score))
  | WARNING => (Ok (), with_line st1 (WarnLine metric_name value score))
  | NORMAL => (Ok (), st1)
  end.
Proof.
  intros score st1. rewrite process_metric_unfold. unfold classify.
  fold score. by repeat destruct (Qgtb _ _).
Qed.

Lemma perform_rca_observed metric_name value (st : State) :
  let rec := generate_recommendation format_float (time_time (clock st))
               (time_time (S (clock st))) metric_name value in
  let st' := snd (perform_rca metric_name value st) in
  (∃ rest, stdout st' =
     stdout st ++ RcaHeader metric_name value :: rca_lines (log_buffer st) ++ rest)
  ∧ clock st' = clock st + match rec with Some _ => 2 | None => 1 end.
Proof.
  intros rec st'. unfold st'. rewrite perform_rca_unfold. fold rec.
  destruct rec as [r|].
  - destruct (send _ _ _) as [[[]|e] p]; [destruct (flush p) as [[[]|e] p']|];
      (split; [|done]).
    + exists [RecommendationLine (Recommendation.title r); RcaFooter].
      cbn. same_lines.
    + by exists [RecommendationLine (Recommendation.title r)].
    + by exists [RecommendationLine (Recommendation.title r)].
  - split; [|done]. exists [RcaFooter]. cbn. same_lines.
Qed.

(** C4: the tier is ALERT exactly for a score over 0.8, WARNING exactly for a
    score over 0.5 and at most 0.8, NORMAL otherwise; on ALERT the sample is
    reported, the buffer is scanned and a recommendation is generated (the
    clock is read); on WARNING only the report is printed; on NORMAL nothing
    is. *)
Theorem alert_tier_drives_rca metric_name value (st : State) :
  let score := score_one (model_of st metric_name) value in
  let st' := snd (process_metric (metric_name, value) st) in
  (classify score 0.8 0.5 = ALERT ↔ (0.8 < score)%Q)
  ∧ (classify score 0.8 0.5 = WARNING ↔ (0.5 < score)%Q ∧ (score <= 0.8)%Q)
  ∧ (classify score 0.8 0.5 = NORMAL ↔ (score <= 0.5)%Q)
  ∧ match classify score 0.8 0.5 with
    | ALERT =>
        (∃ rest, stdout st' =
           stdout st ++ AlertLine metric_name value score
             :: RcaHeader metric_name value :: rca_lines (log_buffer st) ++ rest)
        ∧ clock st < clock st'
    | WARNING =>
        stdout st' = stdout st ++ [WarnLine metric_name value score]
        ∧ producer st' = producer st ∧ clock st' = clock st
    | NORMAL =>
        stdout st' = stdout st
        ∧ producer st' = producer st ∧ clock st' = clock st
    end.
Proof.
  intros score st'. split_and!.
  - unfold classify. destruct (Qgtb score 0.8) eqn:E.
    + by apply Qgtb_true in E.
    + apply Qgtb_false in E. split; [by destruct (Qgtb score 0.5)|].
      intros Hs. by apply Qlt_not_le in Hs.
  - unfold classify. destruct (Qgtb score 0.8) eqn:E.
    + apply Qgtb_true in E. split; [done|]. intros [_ Hs].
      by apply Qlt_not_le in E.
    + apply Qgtb_false in E. destruct (Qgtb score 0.5) eqn:E'.
      * by apply Qgtb_true in E'.
      * apply Qgtb_false in E'. split; [done|]. intros [Hs _].
        by apply Qlt_not_le in Hs.
  - unfold classify. destruct (Qgtb score 0.8) eqn:E.
    + apply Qgtb_true in E. split; [done|]. intros Hs. exfalso.
      apply (Qlt_not_le _ _ E). eapply Qle_trans; [exact Hs|]. by vm_compute.
    + destruct (Qgtb score 0.5) eqn:E'.
      * apply Qgtb_true in E'. split; [done|]. intros Hs.
        by apply Qlt_not_le in E'.
      * by apply Qgtb_false in E'.
  - unfold st'. rewrite process_metric_tiers. fold score.
    destruct (classify score 0.8 0.5); [done|done|].
    destruct (perform_rca_observed metric_name value
      (with_line (learned st metric_name value)
         (AlertLine metric_name value score))) as [[rest Hout] Hclock].
    split.
    + exists rest. rewrite Hout. cbn. by rewrite <- app_assoc.
    + rewrite Hclock. cbn. destruct (generate_recommendation _ _ _ _ _); lia.
Qed.

(** *** Failures of the producer *)

(** C1, as the code has it: [process_message] has no handler around the
    producer.  When [send] raises for the recommendation of a sample, or
    [flush] after it, the exception leaves the loop over the samples: the
    producer has been called once, nothing is printed about the failure, the
    samples after it are not processed, and [main] stops at that message. *)
Theorem sink_failure_propagates :
  (∀ (st : State) metric_name value rest rec e p,
     let score := score_one (model_of st metric_name) value in
     let st1 := with_line (learned st metric_name value)
                  (AlertLine metric_name value score) in
     Qgtb score 0.8 = true →
     generate_recommendation format_float (time_time (clock st))
       (time_time (S (clock st))) metric_name value = Some rec →
     send (producer st) "optimization-recommendations" rec = (Raise e, p) →
     for_each ((metric_name, value) :: rest) process_metric st
     = (Raise e, with_producer (rca_reported metric_name value st1 (Some rec)) p))
  ∧ (∀ (st : State) metric_name value rest rec e p p',
     let score := score_one (model_of st metric_name) value in
     let st1 := with_line (learned st metric_name value)
                  (AlertLine metric_name value score) in
     Qgtb score 0.8 = true →
     generate_recommendation format_float (time_time (clock st))
       (time_time (S (clock st))) metric_name value = Some rec →
     send (producer st) "optimization-recommendations" rec = (Ok (), p) →
     flush p = (Raise e, p') →
     for_each ((metric_name, value) :: rest) process_metric st
     = (Raise e, with_producer (rca_reported metric_name value st1 (Some rec)) p'))
  ∧ (∀ message messages (st : State) e,
     fst (process_message message st) = Raise e →
     main_loop (message :: messages) st = process_message message st).
Proof.
  split_and!.
  - intros st n v rest rec e p score st1 Hs Hg Hsend.
    assert (process_metric (n, v) st =
            (Raise e, with_producer (rca_reported n v st1 (Some rec)) p)) as Hm.
    { rewrite process_metric_unfold. fold score. rewrite Hs.
      fold st1. rewrite perform_rca_unfold.
      change (clock st1) with (clock st). change (producer st1) with (producer st).
      by rewrite Hg, Hsend. }
    rewrite (for_each_raise _ _ _ _ e); by rewrite Hm.
  - intros st n v rest rec e p p' score st1 Hs Hg Hsend Hflush.
    assert (process_metric (n, v) st =
            (Raise e, with_producer (rca_reported n v st1 (Some rec)) p')) as Hm.
    { rewrite process_metric_unfold. fold score. rewrite Hs.
      fold st1. rewrite perform_rca_unfold.
      change (clock st1) with (clock st). change (producer st1) with (producer st).
      by rewrite Hg, Hsend, Hflush. }
    rewrite (for_each_raise _ _ _ _ e); by rewrite Hm.
  - intros m ms st e He. by apply (for_each_raise _ _ _ _ e).
Qed.

(** *** The registry *)

(** The scores that the engine computes, sample after sample, each with the
    name of its metric. *)
Fixpoint observed_scores (st : State) (samples : list (string * Q))
    : list (string * Q) :=
  match samples with
  | [] => []
  | sample :: samples' =>
      (sample.1, score_one (model_of st sample.1) sample.2)
      :: observed_scores (snd (process_metric sample st)) samples'
  end.

(** The part of a stream that belongs to a metric. *)
Definition values_of (metric_name : string) (samples : list (string * Q)) : list Q :=
  map snd (List.filter (λ sample, String.eqb sample.1 metric_name) samples).

(** One model on its own, fed a sequence of values, score then learn. *)
Fixpoint score_then_learn (model : Model) (values : list Q) : list Q :=
  match values with
  | [] => []
  | v :: values' => score_one model v :: score_then_learn (learn_one model v) values'
  end.

Lemma values_of_cons metric_name n (v : Q) samples :
  values_of metric_name ((n, v) :: samples) =
  if String.eqb n metric_name then v :: values_of metric_name samples
  else values_of metric_name samples.
Proof. unfold values_of. cbn. by destruct (String.eqb n metric_name). Qed.

(** After a sample, the model of its metric has learned it and the models of
    the other metrics are as they were. *)
Lemma model_of_after n v (st : State) metric_name :
  model_of (snd (process_metric (n, v) st)) metric_name =
  if String.eqb n metric_name then learn_one (model_of st n) v
  else model_of st metric_name.
Proof.
  unfold model_of at 1. rewrite (proj2 (process_metric_frame n v st)).
  destruct (String.eqb_spec n metric_name) as [->|Hne].
  - by rewrite lookup_insert_eq.
  - by rewrite lookup_insert_ne.
Qed.

(** The scores of a metric are those of its model on its own: the samples
    of the other metrics, the alerts and the failures in between do not
    count. *)
Lemma observed_scores_isolated metric_name samples (st : State) :
  values_of metric_name (observed_scores st samples)
  = score_then_learn (model_of st metric_name) (values_of metric_name samples).
Proof.
  revert st. induction samples as [|[n v] samples IH]; intros st; [done|].
  cbn [observed_scores fst snd]. rewrite !values_of_cons, IH, model_of_after.
  by destruct (String.eqb_spec n metric_name) as [->|Hne].
Qed.

(** What holds of the constructed model and is kept by [learn_one] holds of
    every model that scores a sample. *)
Lemma observed_scores_Forall (P : Model → Prop) (S : Q → Prop) :
  (∀ m v, P m → P (learn_one m v)) →
  (∀ m v, P m → S (score_one m v)) →
  ∀ samples (st : State),
    (∀ n, P (model_of st n)) →
    Forall (λ ns, S ns.2) (observed_scores st samples).
Proof.
  intros Hlearn Hscore. induction samples as [|[n v] samples IH]; intros st Hst.
  - constructor.
  - cbn [observed_scores fst snd]. constructor; [by apply Hscore|].
    apply IH. intros n'. rewrite model_of_after.
    destruct (String.eqb n n'); auto.
Qed.

End EngineFacts.

(** ** The half-space trees *)

Module HSTFacts.
Import HST.

(** *** Terms and masses *)

Lemma pow2_pos (d : nat) : (0 < inject_Z (Z.of_nat (2 ^ d)))%Q.
Proof.
  change 0%Q with (inject_Z 0). rewrite <- Zlt_Qlt.
  assert (2 ^ d ≠ 0) by (apply Nat.pow_nonzero; lia). lia.
Qed.

Lemma term_nonneg (c d : nat) : (0 <= term c d)%Q.
Proof.
  unfold term. apply Qle_shift_div_l; [apply pow2_pos|].
  rewrite Qmult_0_l. change 0%Q with (inject_Z 0). rewrite <- Zle_Qle. lia.
Qed.

Lemma term_mono (c w d : nat) : c ≤ w → (term c d <= term w d)%Q.
Proof.
  intros Hc. unfold term, Qdiv. apply Qmult_le_compat_r.
  - rewrite <- Zle_Qle. lia.
  - apply Qlt_le_weak, Qinv_lt_0_compat, pow2_pos.
Qed.

Lemma level_sum_nonneg (w d n : nat) : (0 <= level_sum w d n)%Q.
Proof.
  revert d. induction n as [|n IH]; intros d; cbn [level_sum].
  - apply Qle_refl.
  - pose proof (term_nonneg w d). pose proof (IH (S d)). lra.
Qed.

Lemma level_sum_first (w n : nat) : (inject_Z (Z.of_nat w) <= level_sum w 0 (S n))%Q.
Proof.
  cbn [level_sum]. pose proof (level_sum_nonneg w 1 n) as Hn.
  assert (term w 0 == inject_Z (Z.of_nat w))%Q as Hw.
  { unfold term, Qdiv. cbn [Nat.pow]. change (/ inject_Z (Z.of_nat 1))%Q with 1%Q.
    apply Qmult_1_r. }
  rewrite Hw. lra.
Qed.

(** *** Invariants of a tree *)

(** No node is deeper than [h]. *)
Fixpoint levels_le (h : nat) (t : Tree) {struct t} : Prop :=
  match t with
  | Leaf _ _ => True
  | Split _ _ _ below above =>
      match h with
      | 0 => False
      | S h' => levels_le h' below ∧ levels_le h' above
      end
  end.

(** Every reference count is at most [w], every current count at most [c]. *)
Fixpoint within (c w : nat) (t : Tree) : Prop :=
  match t with
  | Leaf r l => r ≤ w ∧ l ≤ c
  | Split _ r l below above =>
      r ≤ w ∧ l ≤ c ∧ within c w below ∧ within c w above
  end.

(** Every reference count is zero. *)
Fixpoint no_reference (t : Tree) : Prop :=
  match t with
  | Leaf r _ => r = 0
  | Split _ r _ below above => r = 0 ∧ no_reference below ∧ no_reference above
  end.

Lemma mass_nonneg t x d : (0 <= mass t x d)%Q.
Proof.
  revert d. induction t as [r l|s r l below IHb above IHa]; intros d; cbn [mass].
  - apply term_nonneg.
  - pose proof (term_nonneg r d).
    destruct (Qgtb s x); [pose proof (IHb (S d)) | pose proof (IHa (S d))]; lra.
Qed.

(** The mass of a tree is at most a full window on each level. *)
Lemma mass_le_level_sum t x c w h d :
  within c w t → levels_le h t → (mass t x d <= level_sum w d (S h))%Q.
Proof.
  revert h d. induction t as [r l|s r l below IHb above IHa];
    intros h d Hw Hl; cbn [mass level_sum].
  - destruct Hw as [Hr _]. pose proof (term_mono r w d Hr).
    pose proof (level_sum_nonneg w (S d) h). lra.
  - destruct Hw as (Hr & _ & Hwb & Hwa). destruct h as [|h]; [done|].
    destruct Hl as [Hlb Hla]. pose proof (term_mono r w d Hr).
    destruct (Qgtb s x);
      [pose proof (IHb h (S d) Hwb Hlb) | pose proof (IHa h (S d) Hwa Hla)];
      cbn [level_sum] in *; lra.
Qed.

Lemma learn_tree_levels x h t : levels_le h t → levels_le h (learn_tree x t).
Proof.
  revert h. induction t as [r l|s r l below IHb above IHa]; intros h; [by cbn|].
  cbn [learn_tree]. destruct h as [|h]; destruct (Qgtb s x); cbn; try tauto.
  - intros [? ?]. auto.
  - intros [? ?]. auto.
Qed.

Lemma learn_tree_within x c w t : within c w t → within (S c) w (learn_tree x t).
Proof.
  induction t as [r l|s r l below IHb above IHa]; cbn [learn_tree within].
  - lia.
  - intros (Hr & Hl & Hb & Ha).
    assert (∀ t', within c w t' → within (S c) w t') as Hup.
    { clear. induction t'; cbn; intuition lia. }
    destruct (Qgtb s x); cbn [within]; split_and!; auto; lia.
Qed.

Lemma learn_tree_no_reference x t : no_reference t → no_reference (learn_tree x t).
Proof.
  induction t as [r l|s r l below IHb above IHa]; cbn [learn_tree no_reference]; [done|].
  intros (Hr & Hb & Ha). destruct (Qgtb s x); cbn [no_reference]; auto.
Qed.

Lemma rotate_tree_levels h t : levels_le h t → levels_le h (rotate_tree t).
Proof.
  revert h. induction t as [r l|s r l below IHb above IHa]; intros h; [by cbn|].
  cbn. destruct h as [|h]; [done|]. intros [? ?]. auto.
Qed.

Lemma rotate_tree_within c w t : c ≤ w → within c w t → within 0 w (rotate_tree t).
Proof.
  intros Hc. induction t as [r l|s r l below IHb above IHa]; cbn; intuition lia.
Qed.

(** *** Invariants of a model *)

Record inv (m : Model) : Prop := mkInv {
  inv_trees : length (trees m) = n_trees m;
  inv_levels : Forall (levels_le (height m)) (trees m);
  inv_within : Forall (within (counter m) (window_size m)) (trees m);
  inv_counter : counter m < window_size m;
  inv_first : rotations m = 0 → Forall no_reference (trees m) }.

Lemma learn_inv m x : inv m → inv (learn m x).
Proof.
  intros [Ht Hl Hw Hc Hf]. unfold learn.
  destruct (S (counter m) =? window_size m) eqn:E.
  - apply Nat.eqb_eq in E. constructor; cbn.
    + by rewrite !length_map.
    + rewrite !Forall_map. eapply Forall_impl; [exact Hl|].
      intros t Ht'. cbn. by apply rotate_tree_levels, learn_tree_levels.
    + rewrite !Forall_map. eapply Forall_impl; [exact Hw|].
      intros t Ht'. cbn. apply (rotate_tree_within (S (counter m))); [lia|].
      by apply learn_tree_within.
    + lia.
    + done.
  - apply Nat.eqb_neq in E. constructor; cbn.
    + by rewrite length_map.
    + rewrite Forall_map. eapply Forall_impl; [exact Hl|].
      intros t Ht'. cbn. by apply learn_tree_levels.
    + rewrite Forall_map. eapply Forall_impl; [exact Hw|].
      intros t Ht'. cbn. by apply learn_tree_within.
    + lia.
    + intros Hr. rewrite Forall_map. eapply Forall_impl; [exact (Hf Hr)|].
      intros t Ht'. cbn. by apply learn_tree_no_reference.
Qed.

Lemma learn_all_inv xs m : inv m → inv (fold_left learn xs m).
Proof.
  revert m. induction xs as [|x xs IH]; intros m Hm; [done|].
  cbn [fold_left]. by apply IH, learn_inv.
Qed.

Lemma learn_hyperparameters m x :
  n_trees (learn m x) = n_trees m ∧ height (learn m x) = height m
  ∧ window_size (learn m x) = window_size m.
Proof. unfold learn. by destruct (_ =? _). Qed.

Lemma learn_all_hyperparameters xs m :
  n_trees (fold_left learn xs m) = n_trees m
  ∧ height (fold_left learn xs m) = height m
  ∧ window_size (fold_left learn xs m) = window_size m.
Proof.
  revert m. induction xs as [|x xs IH]; intros m; [done|]. cbn [fold_left].
  destruct (IH (learn m x)) as (-> & -> & ->). apply learn_hyperparameters.
Qed.

(** *** The score *)

Lemma total_mass_bounds m x :
  inv m → (0 <= total_mass m x)%Q ∧ (total_mass m x <= max_mass m)%Q.
Proof.
  intros [Ht Hl Hw _ _]. unfold total_mass, max_mass. rewrite <- Ht. clear Ht.
  induction (trees m) as [|t ts IH]; cbn [fold_right length].
  - rewrite Qmult_0_l. split; apply Qle_refl.
  - apply Forall_cons in Hl as [Hlt Hl]. apply Forall_cons in Hw as [Hwt Hw].
    destruct (IH Hl Hw) as [IH0 IH1].
    pose proof (mass_nonneg t x 0).
    pose proof (mass_le_level_sum t x _ _ _ 0 Hwt Hlt).
    rewrite Nat2Z.inj_succ, <- Z.add_1_r, inject_Z_plus.
    change (inject_Z 1) with 1%Q. split; [lra|].
    rewrite Qmult_plus_distr_l, Qmult_1_l. lra.
Qed.

(** The divisor of the score is not zero. *)
Lemma max_mass_pos m : 1 ≤ n_trees m → 1 ≤ window_size m → (0 < max_mass m)%Q.
Proof.
  intros Hn Hw. unfold max_mass. apply Qmult_lt_0_compat.
  - change 0%Q with (inject_Z 0). rewrite <- Zlt_Qlt. lia.
  - eapply Qlt_le_trans; [|apply level_sum_first].
    change 0%Q with (inject_Z 0). rewrite <- Zlt_Qlt. lia.
Qed.

Lemma normalized_mass_bounds m x :
  inv m → 1 ≤ n_trees m →
  (0 <= total_mass m x / max_mass m)%Q ∧ (total_mass m x / max_mass m <= 1)%Q.
Proof.
  intros Hm Hn. destruct (total_mass_bounds m x Hm) as [H0 H1].
  assert (0 < max_mass m)%Q as Hpos.
  { apply max_mass_pos; [done|]. destruct Hm. lia. }
  split.
  - apply Qle_shift_div_l; [done|]. by rewrite Qmult_0_l.
  - apply Qle_shift_div_r; [done|]. by rewrite Qmult_1_l.
Qed.

Lemma score_bounds m x :
  inv m → 1 ≤ n_trees m → (0 <= score m x)%Q ∧ (score m x <= 1)%Q.
Proof.
  intros Hm Hn. unfold score. destruct (rotations m =? 0).
  - split; [apply Qle_refl | by vm_compute].
  - destruct (normalized_mass_bounds m x Hm Hn). split; lra.
Qed.

(** A window that is not full leaves the rotations as they are. *)
Lemma learn_all_first_window xs m :
  counter m + length xs < window_size m →
  rotations (fold_left learn xs m) = rotations m
  ∧ counter (fold_left learn xs m) = counter m + length xs.
Proof.
  revert m. induction xs as [|x xs IH]; intros m Hc; cbn [fold_left length] in *.
  - split; [done | lia].
  - assert (learn m x = mkModel (n_trees m) (height m) (window_size m)
              (map (learn_tree x) (trees m)) (S (counter m)) (rotations m)) as ->.
    { unfold learn. destruct (Nat.eqb_spec (S (counter m)) (window_size m)); [lia|done]. }
    destruct (IH (mkModel (n_trees m) (height m) (window_size m)
              (map (learn_tree x) (trees m)) (S (counter m)) (rotations m))) as [-> ->];
      cbn; [lia|]. split; [done | lia].
Qed.

Section Reachable.

Variable Rng : Type.
Variable rng_seed : Z → Rng.
Variable rng_draw : Rng → Q → Q → Q * Rng.
Variables range_lo range_hi : Q.

#[local] Abbreviation build := (HST.build Rng rng_draw).
#[local] Abbreviation build_trees := (HST.build_trees Rng rng_draw range_lo range_hi).
#[local] Abbreviation create := (HST.create Rng rng_seed rng_draw range_lo range_hi).

#[local] Instance hst : AnomalyDetector Model :=
  detector Rng rng_seed rng_draw range_lo range_hi.

Lemma build_fresh h lo hi g w :
  levels_le h (fst (build h lo hi g))
  ∧ within 0 w (fst (build h lo hi g))
  ∧ no_reference (fst (build h lo hi g)).
Proof.
  revert lo hi g. induction h as [|h IH]; intros lo hi g; cbn [HST.build].
  - cbn. split_and!; [done | lia | lia | done].
  - destruct (rng_draw g lo hi) as [s g1].
    pose proof (IH lo s g1) as (Hb1 & Hb2 & Hb3).
    destruct (build h lo s g1) as [below g2].
    pose proof (IH s hi g2) as (Ha1 & Ha2 & Ha3).
    destruct (build h s hi g2) as [above g3].
    cbn in *. split_and!; auto; lia.
Qed.

Lemma build_trees_fresh n h g w :
  length (build_trees n h g) = n
  ∧ Forall (levels_le h) (build_trees n h g)
  ∧ Forall (within 0 w) (build_trees n h g)
  ∧ Forall no_reference (build_trees n h g).
Proof.
  revert g. induction n as [|n IH]; intros g; cbn [HST.build_trees].
  - split_and!; [done | constructor..].
  - pose proof (build_fresh h range_lo range_hi g w) as (H1 & H2 & H3).
    destruct (build h range_lo range_hi g) as [t g'].
    destruct (IH g') as (IH0 & IH1 & IH2 & IH3). cbn in *.
    split_and!; [by rewrite IH0 | by constructor..].
Qed.

Lemma create_inv n h w seed : 1 ≤ w → inv (create n h w seed).
Proof.
  intros Hw. destruct (build_trees_fresh n h (rng_seed seed) w) as (H0 & H1 & H2 & H3).
  by constructor; cbn.
Qed.

Lemma reachable_inv n h w seed xs :
  1 ≤ w → inv (fold_left learn xs (create n h w seed)).
Proof. intros Hw. by apply learn_all_inv, create_inv. Qed.

(** Scored before it is learned, a stream that fits in the first window
    gets the score 0 throughout. *)
Lemma score_then_learn_first_window vs m :
  rotations m = 0 → counter m + length vs ≤ window_size m →
  score_then_learn m vs = repeat 0%Q (length vs).
Proof.
  revert m. induction vs as [|v vs IH]; intros m Hr Hc; [done|].
  cbn [score_then_learn length repeat] in *. f_equal.
  - cbn. unfold score. by rewrite Hr.
  - destruct vs as [|v' vs]; [done|]. apply IH; cbn [length] in *.
    + cbn. unfold learn.
      destruct (Nat.eqb_spec (S (counter m)) (window_size m)); [lia|done].
    + cbn. unfold learn.
      destruct (Nat.eqb_spec (S (counter m)) (window_size m)); cbn; lia.
Qed.

Context {Producer : Type} `{!KafkaProducer Producer, !Environment}.

(** C7: a model built with at least one tree and a window of at least one
    sample gives, in every state it reaches by learning and for every value,
    a score between 0 and 1; so does every score that the engine computes
    with its detectors, built with 10 trees and a window of 200. *)
Theorem score_within_unit_interval :
  (∀ n h w seed xs x,
     1 ≤ n → 1 ≤ w →
     let m := fold_left learn xs (create n h w seed) in
     (0 <= score m x)%Q ∧ (score m x <= 1)%Q)
  ∧ (∀ (p : Producer) samples,
       Forall (λ ns, (0 <= ns.2)%Q ∧ (ns.2 <= 1)%Q)
         (observed_scores (initial p) samples)).
Proof.
  split.
  - intros n h w seed xs x Hn Hw m. apply score_bounds.
    + by apply reachable_inv.
    + unfold m. by destruct (learn_all_hyperparameters xs (create n h w seed)) as (-> & _).
  - intros p samples.
    apply (observed_scores_Forall (λ m, inv m ∧ 1 ≤ n_trees m)
             (λ s, (0 <= s)%Q ∧ (s <= 1)%Q)).
    + intros m v [Hm Hn]. cbn. split; [by apply learn_inv|].
      by destruct (learn_hyperparameters m v) as (-> & _).
    + intros m v [Hm Hn]. by apply score_bounds.
    + intros n. unfold model_of. cbn [initial detectors]. rewrite lookup_empty.
      cbn. split; [apply create_inv; lia | lia].
Qed.

(** C8: while fewer than [window_size] samples have been learned no rotation
    has occurred, every reference count is zero and every score is exactly 0;
    the divisor of the score is positive in every state, whatever the stream,
    a constant one included; in the engine, the first 200 samples of a metric
    are all scored 0. *)
Theorem first_window_scores_zero :
  (∀ n h w seed xs,
     1 ≤ n → 1 ≤ w → length xs < w →
     let m := fold_left learn xs (create n h w seed) in
     rotations m = 0 ∧ Forall no_reference (trees m) ∧ ∀ x, score m x = 0%Q)
  ∧ (∀ n h w seed xs,
     1 ≤ n → 1 ≤ w →
     (0 < max_mass (fold_left learn xs (create n h w seed)))%Q)
  ∧ (∀ n h w seed v k x,
     1 ≤ n → 1 ≤ w →
     let m := fold_left learn (repeat v k) (create n h w seed) in
     (0 <= score m x)%Q ∧ (score m x <= 1)%Q)
  ∧ (∀ (p : Producer) samples metric_name,
     length (values_of metric_name samples) ≤ 200 →
     values_of metric_name (observed_scores (initial p) samples)
     = repeat 0%Q (length (values_of metric_name samples))).
Proof.
  split_and!.
  - intros n h w seed xs Hn Hw Hxs m.
    destruct (learn_all_first_window xs (create n h w seed)) as [Hr Hc]; [cbn; lia|].
    cbn in Hr. fold m in Hr. split_and!.
    + done.
    + by apply (inv_first m (reachable_inv n h w seed xs Hw)).
    + intros x. unfold score. by rewrite Hr.
  - intros n h w seed xs Hn Hw.
    destruct (learn_all_hyperparameters xs (create n h w seed)) as (Hn' & _ & Hw').
    apply max_mass_pos; [by rewrite Hn' | by rewrite Hw'].
  - intros n h w seed v k x Hn Hw m. apply score_bounds.
    + by apply reachable_inv.
    + unfold m.
      by destruct (learn_all_hyperparameters (repeat v k) (create n h w seed)) as (-> & _).
  - intros p samples name Hlen. rewrite observed_scores_isolated.
    unfold model_of. cbn [initial detectors]. rewrite lookup_empty.
    by apply score_then_learn_first_window.
Qed.

End Reachable.

End HSTFacts.

(** ** A run of the engine *)

Module Scenario.

(** A detector that gives a sample its own value as score. *)
Definition echo_detector : AnomalyDetector unit :=
  {| HalfSpaceTrees _ _ _ _ := (); score_one _ v := v; learn_one m _ := m |}.

(** A producer whose broker is away: [send] raises. *)
Definition broker_down : KafkaProducer (list Recommendation.t) :=
  {| send p _ _ := (Raise (KafkaError "KafkaTimeoutError"), p);
     flush p := (Ok (), p) |}.

(** A producer that keeps what it is sent. *)
Definition broker_up : KafkaProducer (list Recommendation.t) :=
  {| send p _ rec := (Ok (), p ++ [rec]); flush p := (Ok (), p) |}.

(** A metrics payload with two samples, a logs payload with one record. *)
Definition adapter : Environment :=
  {| parse_otlp_metrics _ := [("node_cpu_usage", 0.95%Q); ("nginx_request_time_ms", 0.9%Q)];
     parse_otlp_logs payload := [LogRecord.mk 0 "ERROR" payload];
     time_time n := inject_Z (1700000000 + Z.of_nat n);
     format_float := fmt_example |}.

(** A metrics payload whose samples have names that no rule matches. *)
Definition disk_adapter : Environment :=
  {| parse_otlp_metrics _ := [("disk_free_bytes", 0.95%Q); ("open_files", 0.9%Q)];
     parse_otlp_logs payload := [LogRecord.mk 0 "ERROR" payload];
     time_time n := inject_Z (1700000000 + Z.of_nat n);
     format_float := fmt_example |}.

Definition metrics_message : Message :=
  {| topic := "telemetry-metrics"; value := "{}" |}.

Definition logs_message : Message :=
  {| topic := "telemetry-logs"; value := "upstream timed out" |}.

Definition start : Engine unit (list Recommendation.t) := mkEngine ∅ [] [] [] 0.

Definition cpu_recommendation : Recommendation.t :=
  {| Recommendation.id := 1700000000000;
     Recommendation.title := "Optimize Worker Connections";
     Recommendation.description :=
       "High CPU usage detected. Tune worker_connections to handle concurrency better.";
     Recommendation.details :=
       "CPU saturation indicates thread contention. Increasing worker_connections provided we have enough file descriptors.";
     Recommendation.impact := "medium";
     Recommendation.category := "Performance";
     Recommendation.confidence := 0.75;
     Recommendation.estimated_improvement := "+20% throughput";
     Recommendation.current_config := "worker_connections 1024;";
     Recommendation.suggested_config := "worker_connections 4096;";
     Recommendation.server := "nginx-prod-01";
     Recommendation.timestamp := 1700000001 |}.

(** With the broker away, the first sample of the message raises an alert,
    [send] raises, and [process_message] raises: nothing is printed after the
    line of the recommendation, and the second sample never reaches the
    registry. *)
Lemma broker_down_run :
  let run := @process_message unit _ echo_detector broker_down adapter
               metrics_message start in
  fst run = Raise (KafkaError "KafkaTimeoutError")
  ∧ stdout (snd run) =
      [AlertLine "node_cpu_usage" 0.95 0.95; RcaHeader "node_cpu_usage" 0.95;
       RecommendationLine "Optimize Worker Connections"]
  ∧ detectors (snd run) !! "node_cpu_usage" = Some ()
  ∧ detectors (snd run) !! "nginx_request_time_ms" = None.
Proof. vm_compute. done. Qed.

(** C1 as stated fails: a failure of the sink does leave
    [process_message]. *)
Lemma sink_failure_escapes_process_message :
  ¬ (∀ Model Producer (D : AnomalyDetector Model) (K : KafkaProducer Producer)
       (E : Environment) message (st : Engine Model Producer),
       fst (process_message message st) = Ok ()).
Proof.
  intros Hclaim.
  pose proof (Hclaim unit _ echo_detector broker_down adapter metrics_message start) as Hok.
  rewrite (proj1 broker_down_run) in Hok. discriminate.
Qed.

Lemma sink_failure_propagates_witness :
  @for_each (Engine unit (list Recommendation.t)) _
    [("node_cpu_usage", 0.95%Q); ("nginx_request_time_ms", 0.9%Q)]
    (@process_metric unit _ echo_detector broker_down adapter) start
  = (Raise (KafkaError "KafkaTimeoutError"),
     mkEngine {["node_cpu_usage" := ()]} [] []
       [AlertLine "node_cpu_usage" 0.95 0.95; RcaHeader "node_cpu_usage" 0.95;
        RecommendationLine "Optimize Worker Connections"] 2).
Proof.
  destruct (@sink_failure_propagates unit _ echo_detector broker_down adapter)
    as (Hsend & _ & _).
  apply (Hsend start "node_cpu_usage" 0.95%Q
           [("nginx_request_time_ms", 0.9%Q)] cpu_recommendation
           (KafkaError "KafkaTimeoutError") []); reflexivity.
Defined.

Lemma process_message_pathways_disjoint_witness :
  log_buffer (snd (@process_message unit _ echo_detector broker_up adapter
                     metrics_message start)) = []
  ∧ detectors (snd (@process_message unit _ echo_detector broker_up adapter
                      logs_message start)) = ∅.
Proof.
  split.
  - apply (proj1 (@process_message_pathways_disjoint unit _ echo_detector
                    broker_up adapter metrics_message start)). reflexivity.
  - apply (proj2 (@process_message_pathways_disjoint unit _ echo_detector
                    broker_up adapter logs_message start)). reflexivity.
Defined.

(** 1001 records, numbered in the order of arrival. *)
Definition arrivals : list LogRecord.t :=
  map (λ i, LogRecord.mk (Z.of_nat i) "INFO" "tick") (seq 0 1001).

Lemma log_buffer_keeps_last_records_witness :
  fold_left (deque_append LOG_BUFFER_SIZE) arrivals [] = drop 1 arrivals
  ∧ length (drop 1 arrivals) = LOG_BUFFER_SIZE.
Proof.
  destruct (@log_buffer_keeps_last_records unit _ echo_detector broker_up adapter)
    as (_ & _ & Hlast).
  apply Hlast; [lia | reflexivity].
Defined.

(** A stream with the extreme values of the specification. *)
Definition extremes : list Q := [0.5%Q; 1000000000000%Q; (-1000000000000)%Q; 0%Q].

Definition lcg_model : HST.Model :=
  fold_left HST.learn extremes (HST.create Z HST.lcg_seed HST.lcg_draw 0 1 10 8 200 42).

Lemma score_within_unit_interval_witness :
  (0 <= HST.score lcg_model 1000000000000)%Q
  ∧ (HST.score lcg_model 1000000000000 <= 1)%Q.
Proof.
  apply (proj1 (@HSTFacts.score_within_unit_interval Z HST.lcg_seed HST.lcg_draw
                  0 1 (list Recommendation.t) broker_up adapter)
           10 8 200 42%Z extremes 1000000000000%Q); lia.
Defined.

Lemma first_window_scores_zero_witness :
  HST.rotations lcg_model = 0
  ∧ Forall HSTFacts.no_reference (HST.trees lcg_model)
  ∧ ∀ x, HST.score lcg_model x = 0%Q.
Proof.
  apply (proj1 (@HSTFacts.first_window_scores_zero Z HST.lcg_seed HST.lcg_draw
                  0 1 (list Recommendation.t) broker_up adapter)
           10 8 200 42%Z extremes); cbn; lia.
Defined.

End Scenario.

(** * The OTLP adapters *)

(** ** Python values and their operations *)

(** What [orjson.loads] returns: [None], a bool, an int, a float, a str, a
    list or a dict.  A dict is the list of its items; a key is looked up from
    the front. *)
Module Json.
#[local] Set Warnings "-register-all".
Inductive t :=
| Null
| Bool (b : bool)
| Int (n : Z)
| Float (x : Q)
| Str (s : string)
| Arr (l : list t)
| Obj (items : list (string * t)).
End Json.

Module Py.

Inductive PyError :=
| JSONDecodeError
| AttributeError
| TypeError
| ValueError
| KeyError
| OverflowError.

(** An expression that returns or raises. *)
Inductive Try (A : Type) :=
| Return (a : A)
| Except (e : PyError).
Arguments Return {A} a.
Arguments Except {A} e.

#[global] Instance Try_ret : MRet Try := λ A a, Return a.

#[global] Instance Try_bind : MBind Try := λ A B f m,
  match m with
  | Return a => f a
  | Except e => Except e
  end.

(** [try: return body / except Exception: return handler] *)
Definition try_except {A} (body : Try A) (handler : A) : A :=
  match body with
  | Return a => a
  | Except _ => handler
  end.

(** The item of a key in a dict. *)
Fixpoint lookup_key (key : string) (items : list (string * Json.t)) : option Json.t :=
  match items with
  | [] => None
  | (k, v) :: items' => if String.eqb k key then Some v else lookup_key key items'
  end.

(** [x.get(key, default)]: only a dict has the method. *)
Definition get (x : Json.t) (key : string) (default : Json.t) : Try Json.t :=
  match x with
  | Json.Obj items => Return (from_option id default (lookup_key key items))
  | _ => Except AttributeError
  end.

(** [x[key]] for a str key. *)
Definition getitem (x : Json.t) (key : string) : Try Json.t :=
  match x with
  | Json.Obj items =>
      match lookup_key key items with
      | Some v => Return v
      | None => Except KeyError
      end
  | _ => Except TypeError
  end.

(** [key in x] for a str key: a key of a dict, an element of a list, a
    substring of a str. *)
Definition contains (x : Json.t) (key : string) : Try bool :=
  match x with
  | Json.Obj items => Return (bool_decide (is_Some (lookup_key key items)))
  | Json.Arr l =>
      Return (existsb (λ y, match y with Json.Str s => String.eqb s key | _ => false end) l)
  | Json.Str s => Return (str_in key s)
  | _ => Except TypeError
  end.

(** [iter(x)]: the elements of a list, the keys of a dict, the characters of
    a str (here one per byte). *)
Definition iter (x : Json.t) : Try (list Json.t) :=
  match x with
  | Json.Arr l => Return l
  | Json.Obj items => Return (map (λ kv, Json.Str kv.1) items)
  | Json.Str s =>
      Return (map (λ c, Json.Str (String c EmptyString)) (list_ascii_of_string s))
  | _ => Except TypeError
  end.

(** [bool(x)] *)
Definition truthy (x : Json.t) : bool :=
  match x with
  | Json.Null => false
  | Json.Bool b => b
  | Json.Int n => negb (n =? 0)%Z
  | Json.Float q => negb (Qeq_bool q 0)
  | Json.Str s => negb (String.eqb s "")
  | Json.Arr l => negb (bool_decide (l = []))
  | Json.Obj items => negb (bool_decide (items = []))
  end.

(** [a or b] *)
Definition or_ (a b : Json.t) : Json.t := if truthy a then a else b.

(** [for x in iterable: results = body(x, results)], from [results]. *)
Fixpoint for_in {A} (l : list Json.t) (body : Json.t → A → Try A) (results : A) : Try A :=
  match l with
  | [] => Return results
  | x :: l' => results' ← body x results; for_in l' body results'
  end.

(** A Python float: a finite binary64 value, an infinity or a NaN. *)
Inductive PyFloat :=
| Finite (x : Q)
| PosInf
| NegInf
| NaN.

(** The binary64 value nearest to an int, ties to the even mantissa: ints of
    at most 53 bits are kept, the others lose their low bits. *)
Definition round_int (n : Z) : Z :=
  let a := Z.abs n in
  let e := (Z.log2 a - 52)%Z in
  if (e <=? 0)%Z then n
  else
    let q := Z.shiftr a e in
    let r := (a mod 2 ^ e)%Z in
    let half := (2 ^ (e - 1))%Z in
    let q' := if (half <? r)%Z || ((r =? half)%Z && Z.odd q) then (q + 1)%Z else q in
    (Z.sgn n * (q' * 2 ^ e))%Z.

(** The conversions of a str that Python's [float] and [int] accept, and
    [orjson.loads] ([None] stands for the exception). *)
Class Conversions := {
  float_of_str : string → option PyFloat;
  int_of_str : string → option Z;
  loads : string → option Json.t }.

Section Adapters.

Context `{!Conversions}.

(** [float(x)]: an int is rounded to binary64, and is too large from
    2^1024 on (the ints of a document are 64-bit and never are); a str may
    spell an infinity or a NaN. *)
Definition float_ (x : Json.t) : Try PyFloat :=
  match x with
  | Json.Int n =>
      if (2 ^ 1024 <=? Z.abs (round_int n))%Z then Except OverflowError
      else Return (Finite (inject_Z (round_int n)))
  | Json.Float q => Return (Finite q)
  | Json.Bool b => Return (Finite (if b then 1%Q else 0%Q))
  | Json.Str s =>
      match float_of_str s with
      | Some x => Return x
      | None => Except ValueError
      end
  | _ => Except TypeError
  end.

(** [int(x)] *)
Definition int_ (x : Json.t) : Try Z :=
  match x with
  | Json.Int n => Return n
  | Json.Float q => Return (int_of_float q)
  | Json.Bool b => Return (if b then 1%Z else 0%Z)
  | Json.Str s =>
      match int_of_str s with
      | Some n => Return n
      | None => Except ValueError
      end
  | _ => Except TypeError
  end.

Definition loads_ (msg_bytes : string) : Try Json.t :=
  match loads msg_bytes with
  | Some data => Return data
  | None => Except JSONDecodeError
  end.

End Adapters.

End Py.

(** The dict that [parse_otlp_logs] appends: the severity and the message are
    whatever the document holds. *)
Module RawLog.
Record t := mk { timestamp : Z; severity : Json.t; message : Json.t }.
End RawLog.

(** ** [parse_otlp_metrics] and [parse_otlp_logs] *)

Module Otlp.
Import Py.

Section Otlp.

Context `{!Conversions}.

(** [float(dp.get("asInt") or dp.get("asDouble") or 0)] *)
Definition datapoint_value (dp : Json.t) : Try PyFloat :=
  as_int ← get dp "asInt" Json.Null;
  val ← (if truthy as_int then Return as_int
         else as_double ← get dp "asDouble" Json.Null;
              Return (or_ as_double (Json.Int 0)));
  float_ val.

(** The datapoints of a metric: those of its ["sum"], else those of its
    ["gauge"], else none. *)
Definition datapoints (m : Json.t) : Try Json.t :=
  contains m "sum" ≫= λ has_sum : bool,
  if has_sum then
    sum ← getitem m "sum"; get sum "dataPoints" (Json.Arr [])
  else
    contains m "gauge" ≫= λ has_gauge : bool,
    if has_gauge then
      gauge ← getitem m "gauge"; get gauge "dataPoints" (Json.Arr [])
    else Return (Json.Arr []).

(** The body of the [try] of [parse_otlp_metrics]. *)
Definition extract_metrics (msg_bytes : string) : Try (list (Json.t * PyFloat)) :=
  data ← loads_ msg_bytes;
  rms ← get data "resourceMetrics" (Json.Arr []) ≫= iter;
  for_in rms (λ rm results,
    sms ← get rm "scopeMetrics" (Json.Arr []) ≫= iter;
    for_in sms (λ sm results,
      ms ← get sm "metrics" (Json.Arr []) ≫= iter;
      for_in ms (λ m results,
        name ← get m "name" (Json.Str "");
        dp_list ← datapoints m ≫= iter;
        for_in dp_list (λ dp results,
          val ← datapoint_value dp;
          Return (results ++ [(name, val)])) results) results) results) [].

Definition parse_otlp_metrics (msg_bytes : string) : list (Json.t * PyFloat) :=
  try_except (extract_metrics msg_bytes) [].

(** The statements on one log record. *)
Definition log_record (lr : Json.t) : Try RawLog.t :=
  body ← get lr "body" (Json.Obj []) ≫= λ b, get b "stringValue" (Json.Str "");
  body ← (if negb (truthy body) then
            b ← get lr "body" (Json.Obj []);
            v ← get b "value" (Json.Obj []);
            get v "stringValue" (Json.Str "")
          else Return body);
  severity ← get lr "severityText" (Json.Str "INFO");
  timestamp ← get lr "timeUnixNano" (Json.Int 0) ≫= int_;
  Return (RawLog.mk (timestamp `div` 1000000000) severity body).

Definition extract_logs (msg_bytes : string) : Try (list RawLog.t) :=
  data ← loads_ msg_bytes;
  rls ← get data "resourceLogs" (Json.Arr []) ≫= iter;
  for_in rls (λ rl results,
    sls ← get rl "scopeLogs" (Json.Arr []) ≫= iter;
    for_in sls (λ sl results,
      lrs ← get sl "logRecords" (Json.Arr []) ≫= iter;
      for_in lrs (λ lr results,
        record ← log_record lr;
        Return (results ++ [record])) results) results) [].

Definition parse_otlp_logs (msg_bytes : string) : list RawLog.t :=
  try_except (extract_logs msg_bytes) [].

End Otlp.
End Otlp.

(** ** Properties of the adapters *)

Module OtlpFacts.
Import Py Otlp.

(** *** Loops that append *)

Lemma Try_bind_assoc {A B C} (m : Try A) (f : A → Try B) (g : B → Try C) :
  (m ≫= f) ≫= g = m ≫= λ a, f a ≫= g.
Proof. by destruct m. Qed.

(** A loop whose body appends what it computes from the item is a [mapM]
    followed by a concatenation. *)
Lemma for_in_appends {B} (f : Json.t → Try (list B))
    (body : Json.t → list B → Try (list B)) l results :
  (∀ x results, body x results = (ys ← f x; Return (results ++ ys))) →
  for_in l body results = (yss ← mapM f l; Return (results ++ concat yss)).
Proof.
  intros Hbody. revert results. induction l as [|x l IH]; intros results.
  - cbn. by rewrite app_nil_r.
  - cbn [for_in mapM]. rewrite Hbody. destruct (f x) as [ys|e]; [|done].
    cbn. rewrite IH. destruct (mapM f l) as [yss|e]; [|done].
    cbn. by rewrite app_assoc.
Qed.

Lemma mapM_app {A B} (f : A → Try B) l1 l2 :
  mapM f (l1 ++ l2) = (ys1 ← mapM f l1; ys2 ← mapM f l2; Return (ys1 ++ ys2)).
Proof.
  induction l1 as [|x l1 IH]; cbn [mapM app].
  - cbn. by destruct (mapM f l2).
  - destruct (f x) as [y|e]; [|done]. cbn. rewrite IH.
    destruct (mapM f l1) as [ys1|e]; [|done]. cbn.
    by destruct (mapM f l2).
Qed.

(** Every item converts: the [mapM] returns the conversions, in order. *)
Lemma mapM_Return {A B} (f : A → Try B) (g : A → B) l :
  (∀ x, x ∈ l → f x = Return (g x)) → mapM f l = Return (map g l).
Proof.
  induction l as [|x l IH]; intros Hf; [done|]. cbn [mapM map].
  rewrite Hf by apply list_elem_of_here. cbn.
  rewrite IH; [done|]. intros y Hy. apply Hf. by apply list_elem_of_further.
Qed.

(** One item raises: the [mapM] raises. *)
Lemma mapM_Except {A B} (f : A → Try B) l x e :
  x ∈ l → f x = Except e → ∃ e', mapM f l = Except e'.
Proof.
  intros Hx Hf. induction l as [|y l IH]; [by apply not_elem_of_nil in Hx|].
  cbn [mapM]. apply elem_of_cons in Hx as [<-|Hx].
  - rewrite Hf. by exists e.
  - destruct (f y) as [z|e0]; [|by exists e0]. cbn.
    destruct (IH Hx) as [e' ->]. by exists e'.
Qed.

Lemma mapM_singletons {A B} (f : A → Try B) l :
  (yss ← mapM (λ x, y ← f x; Return [y]) l; Return (concat yss)) = mapM f l.
Proof.
  induction l as [|x l IH]; [done|]. cbn [mapM].
  destruct (f x) as [y|e]; [|done]. cbn. rewrite <- IH.
  by destruct (mapM (λ x, y ← f x; Return [y]) l).
Qed.

Lemma mapM_map {A B C} (f : B → Try C) (g : A → B) l :
  mapM f (map g l) = mapM (λ x, f (g x)) l.
Proof.
  induction l as [|x l IH]; [done|]. cbn [map mapM]. by rewrite IH.
Qed.

Lemma concat_map_concat {A} (l : list (list (list A))) :
  concat (map (@concat A) l) = concat (concat l).
Proof.
  induction l as [|x l IH]; [done|]. cbn [map concat]. by rewrite concat_app, IH.
Qed.

Lemma mapM_ext {A B} (f g : A → Try B) l :
  (∀ x, f x = g x) → mapM f l = mapM g l.
Proof.
  intros Hfg. induction l as [|x l IH]; [done|]. cbn [mapM]. by rewrite Hfg, IH.
Qed.

(** A traversal of lists of lists is a traversal of their concatenation. *)
Lemma mapM_concat {A B} (f : A → Try (list B)) (ls : list (list A)) :
  (zss ← mapM (λ l, yss ← mapM f l; Return (concat yss)) ls; Return (concat zss))
  = (yss ← mapM f (concat ls); Return (concat yss)).
Proof.
  induction ls as [|l ls IH]; [done|]. cbn [mapM concat]. rewrite mapM_app.
  destruct (mapM f l) as [ys1|e]; [|done]. cbn.
  destruct (mapM (λ l, yss ← mapM f l; Return (concat yss)) ls) as [zss|e];
    destruct (mapM f (concat ls)) as [ys2|e']; cbn in *; try done.
  - injection IH as IH. by rewrite concat_app, IH.
Qed.

(** *** Documents *)

(** A metric of an OTLP document: its name, the kind that holds its
    datapoints, and the datapoints as the document has them. *)
Inductive Kind := SumKind | GaugeKind.

Record Metric := mkMetric {
  m_name : Json.t;
  m_kind : Kind;
  m_points : list Json.t }.

Definition encode_metric (m : Metric) : Json.t :=
  Json.Obj
    [("name", m_name m);
     (match m_kind m with SumKind => "sum" | GaugeKind => "gauge" end,
      Json.Obj [("dataPoints", Json.Arr (m_points m))])].

Definition encode_scope_metrics (ms : list Metric) : Json.t :=
  Json.Obj [("metrics", Json.Arr (map encode_metric ms))].

Definition encode_resource_metrics (sms : list (list Metric)) : Json.t :=
  Json.Obj [("scopeMetrics", Json.Arr (map encode_scope_metrics sms))].

(** The document: resources, their scopes, their metrics. *)
Definition encode_metrics (doc : list (list (list Metric))) : Json.t :=
  Json.Obj [("resourceMetrics", Json.Arr (map encode_resource_metrics doc))].

Definition metrics_of (doc : list (list (list Metric))) : list Metric :=
  concat (concat doc).

(** A log record of an OTLP document: the time as the document has it, the
    severity text and the body text. *)
Record LogEntry := mkLogEntry {
  le_time : Json.t;
  le_severity : string;
  le_body : string }.

Definition encode_log_record (r : LogEntry) : Json.t :=
  Json.Obj
    [("timeUnixNano", le_time r);
     ("severityText", Json.Str (le_severity r));
     ("body", Json.Obj [("stringValue", Json.Str (le_body r))])].

Definition encode_scope_logs (rs : list LogEntry) : Json.t :=
  Json.Obj [("logRecords", Json.Arr (map encode_log_record rs))].

Definition encode_resource_logs (sls : list (list LogEntry)) : Json.t :=
  Json.Obj [("scopeLogs", Json.Arr (map encode_scope_logs sls))].

Definition encode_logs (doc : list (list (list LogEntry))) : Json.t :=
  Json.Obj [("resourceLogs", Json.Arr (map encode_resource_logs doc))].

Definition entries_of (doc : list (list (list LogEntry))) : list LogEntry :=
  concat (concat doc).

(** A record of the buffer, when the severity and the message are strs. *)
Definition typed_log (r : RawLog.t) : option LogRecord.t :=
  match RawLog.severity r, RawLog.message r with
  | Json.Str severity, Json.Str message =>
      Some (LogRecord.mk (RawLog.timestamp r) severity message)
  | _, _ => None
  end.


Section Facts.

Context `{!Conversions}.

(** *** The metrics adapter as a traversal *)

(** The samples of one metric. *)
Definition metric_samples (m : Json.t) : Try (list (Json.t * PyFloat)) :=
  name ← get m "name" (Json.Str "");
  dp_list ← datapoints m ≫= iter;
  mapM (λ dp, val ← datapoint_value dp; Return (name, val)) dp_list.

Definition scope_samples (sm : Json.t) : Try (list (Json.t * PyFloat)) :=
  ms ← get sm "metrics" (Json.Arr []) ≫= iter;
  yss ← mapM metric_samples ms; Return (concat yss).

Definition resource_samples (rm : Json.t) : Try (list (Json.t * PyFloat)) :=
  sms ← get rm "scopeMetrics" (Json.Arr []) ≫= iter;
  yss ← mapM scope_samples sms; Return (concat yss).

Lemma metric_loop m (results : list (Json.t * PyFloat)) :
  (name ← get m "name" (Json.Str "");
   dp_list ← datapoints m ≫= iter;
   for_in dp_list (λ dp results,
     val ← datapoint_value dp;
     Return (results ++ [(name, val)])) results)
  = (ys ← metric_samples m; Return (results ++ ys)).
Proof.
  unfold metric_samples. destruct (get m "name" _) as [name|e]; [|done]. cbn.
  destruct (datapoints m ≫= iter) as [dp_list|e]; [|done]. cbn.
  rewrite (for_in_appends (λ dp, val ← datapoint_value dp; Return [(name, val)])).
  - rewrite <- (mapM_singletons (λ dp, val ← datapoint_value dp; Return (name, val))).
    assert (mapM (λ dp, y ← (val ← datapoint_value dp; Return (name, val)); Return [y]) dp_list
            = mapM (λ dp, val ← datapoint_value dp; Return [(name, val)]) dp_list) as ->.
    { induction dp_list as [|dp l IH]; [done|]. cbn [mapM]. rewrite IH.
      by destruct (datapoint_value dp). }
    by destruct (mapM _ dp_list).
  - intros dp acc. by destruct (datapoint_value dp).
Qed.

Lemma scope_loop sm (results : list (Json.t * PyFloat)) :
  (ms ← get sm "metrics" (Json.Arr []) ≫= iter;
   for_in ms (λ m results,
     name ← get m "name" (Json.Str "");
     dp_list ← datapoints m ≫= iter;
     for_in dp_list (λ dp results,
       val ← datapoint_value dp;
       Return (results ++ [(name, val)])) results) results)
  = (ys ← scope_samples sm; Return (results ++ ys)).
Proof.
  unfold scope_samples.
  destruct (get sm "metrics" _ ≫= iter) as [ms|e]; [|done]. cbn.
  rewrite (for_in_appends metric_samples) by apply metric_loop.
  by destruct (mapM metric_samples ms).
Qed.

Lemma resource_loop rm (results : list (Json.t * PyFloat)) :
  (sms ← get rm "scopeMetrics" (Json.Arr []) ≫= iter;
   for_in sms (λ sm results,
     ms ← get sm "metrics" (Json.Arr []) ≫= iter;
     for_in ms (λ m results,
       name ← get m "name" (Json.Str "");
       dp_list ← datapoints m ≫= iter;
       for_in dp_list (λ dp results,
         val ← datapoint_value dp;
         Return (results ++ [(name, val)])) results) results) results)
  = (ys ← resource_samples rm; Return (results ++ ys)).
Proof.
  unfold resource_samples.
  destruct (get rm "scopeMetrics" _ ≫= iter) as [sms|e]; [|done]. cbn.
  rewrite (for_in_appends scope_samples) by apply scope_loop.
  by destruct (mapM scope_samples sms).
Qed.

(** The four nested loops of [parse_otlp_metrics] visit the metrics of the
    document in order and concatenate their samples. *)
Lemma extract_metrics_traversal msg_bytes :
  extract_metrics msg_bytes =
  (data ← loads_ msg_bytes;
   rms ← get data "resourceMetrics" (Json.Arr []) ≫= iter;
   yss ← mapM resource_samples rms;
   Return (concat yss)).
Proof.
  unfold extract_metrics. destruct (loads_ msg_bytes) as [data|e]; [|done]. cbn.
  destruct (get data "resourceMetrics" _ ≫= iter) as [rms|e]; [|done]. cbn.
  by rewrite (for_in_appends resource_samples) by apply resource_loop.
Qed.

(** The samples of a metric of a document: one per datapoint. *)
Definition typed_samples (m : Metric) : Try (list (Json.t * PyFloat)) :=
  mapM (λ dp, val ← datapoint_value dp; Return (m_name m, val)) (m_points m).

Lemma metric_samples_encode m : metric_samples (encode_metric m) = typed_samples m.
Proof. unfold metric_samples, encode_metric. by destruct (m_kind m). Qed.

Lemma scope_samples_encode ms :
  scope_samples (encode_scope_metrics ms)
  = (yss ← mapM typed_samples ms; Return (concat yss)).
Proof.
  unfold scope_samples, encode_scope_metrics. cbn. rewrite mapM_map.
  by rewrite (mapM_ext _ typed_samples) by apply metric_samples_encode.
Qed.

Lemma resource_samples_encode sms :
  resource_samples (encode_resource_metrics sms)
  = (yss ← mapM typed_samples (concat sms); Return (concat yss)).
Proof.
  unfold resource_samples, encode_resource_metrics. cbn. rewrite mapM_map.
  rewrite (mapM_ext _ (λ ms, yss ← mapM typed_samples ms; Return (concat yss)))
    by apply scope_samples_encode.
  apply mapM_concat.
Qed.

Lemma extract_metrics_encode msg_bytes doc :
  loads msg_bytes = Some (encode_metrics doc) →
  extract_metrics msg_bytes
  = (yss ← mapM typed_samples (metrics_of doc); Return (concat yss)).
Proof.
  intros Hload. rewrite extract_metrics_traversal. unfold loads_. rewrite Hload.
  unfold encode_metrics, metrics_of. cbn. rewrite mapM_map.
  rewrite (mapM_ext _ (λ sms, yss ← mapM typed_samples (concat sms); Return (concat yss)))
    by apply resource_samples_encode.
  rewrite <- (mapM_map (λ ms, yss ← mapM typed_samples ms; Return (concat yss))
                (@concat Metric)).
  by rewrite mapM_concat, concat_map_concat.
Qed.

(** X1: the samples of a document, in the order of the document: each datapoint
    with the name of its metric. *)
Theorem parse_otlp_metrics_document msg_bytes doc (val : Json.t → PyFloat) :
  loads msg_bytes = Some (encode_metrics doc) →
  (∀ m dp, m ∈ metrics_of doc → dp ∈ m_points m →
           datapoint_value dp = Return (val dp)) →
  parse_otlp_metrics msg_bytes
  = flat_map (λ m, map (λ dp, (m_name m, val dp)) (m_points m)) (metrics_of doc).
Proof.
  intros Hload Hval. unfold parse_otlp_metrics.
  rewrite (extract_metrics_encode _ doc Hload).
  rewrite (mapM_Return _ (λ m, map (λ dp, (m_name m, val dp)) (m_points m))).
  - cbn. by rewrite flat_map_concat_map.
  - intros m Hm. unfold typed_samples.
    apply (mapM_Return _ (λ dp, (m_name m, val dp))).
    intros dp Hdp. by rewrite (Hval m dp Hm Hdp).
Qed.

(** X2: one datapoint that cannot be converted and the message gives no sample
    at all: those of the other datapoints are dropped. *)
Theorem parse_otlp_metrics_all_or_nothing msg_bytes doc m dp e :
  loads msg_bytes = Some (encode_metrics doc) →
  m ∈ metrics_of doc → dp ∈ m_points m →
  datapoint_value dp = Except e →
  parse_otlp_metrics msg_bytes = [].
Proof.
  intros Hload Hm Hdp Hfail. unfold parse_otlp_metrics.
  rewrite (extract_metrics_encode _ doc Hload).
  assert (∃ e', typed_samples m = Except e') as [e' He'].
  { unfold typed_samples. apply (mapM_Except _ _ dp e); [done|]. by rewrite Hfail. }
  by destruct (mapM_Except typed_samples _ m e' Hm He') as [e'' ->].
Qed.

(** *** The datapoint and the kind of a metric *)




(** X4: the datapoints of a metric are those of its ["sum"] when it has one,
    whatever its ["gauge"] holds; those of its ["gauge"] otherwise; and a
    metric of any other kind (a histogram, a summary) has none. *)
Theorem datapoints_by_kind items :
  (∀ sum, lookup_key "sum" items = Some sum →
     datapoints (Json.Obj items) = get sum "dataPoints" (Json.Arr []))
  ∧ (∀ gauge, lookup_key "sum" items = None →
     lookup_key "gauge" items = Some gauge →
     datapoints (Json.Obj items) = get gauge "dataPoints" (Json.Arr []))
  ∧ (lookup_key "sum" items = None → lookup_key "gauge" items = None →
     datapoints (Json.Obj items) = Return (Json.Arr [])
     ∧ ∀ name, lookup_key "name" items = Some name →
         metric_samples (Json.Obj items) = Return []).
Proof.
  unfold datapoints. split_and!.
  - intros sum Hs. cbn. by rewrite Hs.
  - intros gauge Hs Hg. cbn. by rewrite Hs, Hg.
  - intros Hs Hg. split.
    + cbn. by rewrite Hs, Hg.
    + intros name Hn. unfold metric_samples, datapoints. cbn. by rewrite Hs, Hg.
Qed.

(** *** Payloads that are not documents *)

(** X5: a payload that does not decode, or decodes to anything but a dict, gives
    no sample and no record; so does a dict without the key of the
    resources. *)
Theorem adapters_return_empty msg_bytes :
  (loads msg_bytes = None →
     parse_otlp_metrics msg_bytes = [] ∧ parse_otlp_logs msg_bytes = [])
  ∧ (∀ data, loads msg_bytes = Some data → (∀ items, data ≠ Json.Obj items) →
     parse_otlp_metrics msg_bytes = [] ∧ parse_otlp_logs msg_bytes = [])
  ∧ (∀ items, loads msg_bytes = Some (Json.Obj items) →
     (lookup_key "resourceMetrics" items = None → parse_otlp_metrics msg_bytes = [])
     ∧ (lookup_key "resourceLogs" items = None → parse_otlp_logs msg_bytes = [])).
Proof.
  unfold parse_otlp_metrics, parse_otlp_logs, extract_metrics, extract_logs, loads_.
  split_and!.
  - by intros ->.
  - intros data -> Hdata. destruct data; try done. by destruct (Hdata items).
  - intros items ->. split; intros Hk; cbn; by rewrite Hk.
Qed.

(** *** The logs adapter *)

Lemma extract_logs_traversal msg_bytes :
  extract_logs msg_bytes =
  (data ← loads_ msg_bytes;
   rls ← get data "resourceLogs" (Json.Arr []) ≫= iter;
   yss ← mapM (λ rl,
     sls ← get rl "scopeLogs" (Json.Arr []) ≫= iter;
     yss ← mapM (λ sl,
       lrs ← get sl "logRecords" (Json.Arr []) ≫= iter;
       mapM log_record lrs) sls;
     Return (concat yss)) rls;
   Return (concat yss)).
Proof.
  unfold extract_logs. destruct (loads_ msg_bytes) as [data|e]; [|done]. cbn.
  destruct (get data "resourceLogs" _ ≫= iter) as [rls|e]; [|done]. cbn.
  rewrite (for_in_appends (λ rl,
     sls ← get rl "scopeLogs" (Json.Arr []) ≫= iter;
     yss ← mapM (λ sl,
       lrs ← get sl "logRecords" (Json.Arr []) ≫= iter;
       mapM log_record lrs) sls;
     Return (concat yss))); [done|].
  intros rl results.
  destruct (get rl "scopeLogs" _ ≫= iter) as [sls|e]; [|done]. cbn.
  rewrite (for_in_appends (λ sl,
       lrs ← get sl "logRecords" (Json.Arr []) ≫= iter;
       mapM log_record lrs)).
  { by destruct (mapM _ sls). }
  intros sl acc.
  destruct (get sl "logRecords" _ ≫= iter) as [lrs|e]; [|done]. cbn.
  rewrite (for_in_appends (λ lr, record ← log_record lr; Return [record])).
  - rewrite <- (mapM_singletons log_record). by destruct (mapM _ lrs).
  - intros lr acc'. by destruct (log_record lr).
Qed.

Lemma log_record_encode r n :
  int_ (le_time r) = Return n →
  log_record (encode_log_record r)
  = Return (RawLog.mk (n `div` 1000000000) (Json.Str (le_severity r))
              (Json.Str (le_body r))).
Proof.
  intros Hn. unfold log_record, encode_log_record. cbn.
  destruct (String.eqb_spec (le_body r) "") as [->|Hne]; cbn; by rewrite Hn.
Qed.

Lemma log_record_encode_fails r e :
  int_ (le_time r) = Except e → log_record (encode_log_record r) = Except e.
Proof.
  intros Hn. unfold log_record, encode_log_record. cbn.
  destruct (String.eqb_spec (le_body r) "") as [->|Hne]; cbn; by rewrite Hn.
Qed.

Lemma extract_logs_encode msg_bytes doc :
  loads msg_bytes = Some (encode_logs doc) →
  extract_logs msg_bytes
  = mapM (λ r, log_record (encode_log_record r)) (entries_of doc).
Proof.
  intros Hload. rewrite extract_logs_traversal. unfold loads_. rewrite Hload.
  unfold encode_logs, entries_of. cbn. rewrite mapM_map.
  set (f := λ r, y ← log_record (encode_log_record r); Return [y]).
  rewrite (mapM_ext _ (λ sls, yss ← mapM f (concat sls); Return (concat yss))).
  - rewrite <- (mapM_map (λ rs, yss ← mapM f rs; Return (concat yss))
                  (@concat LogEntry)).
    rewrite mapM_concat, concat_map_concat. apply mapM_singletons.
  - intros sls. unfold encode_resource_logs. cbn. rewrite mapM_map.
    rewrite (mapM_ext _ (λ rs, yss ← mapM f rs; Return (concat yss))).
    + apply mapM_concat.
    + intros rs. unfold encode_scope_logs. cbn. rewrite mapM_map.
      symmetry. apply mapM_singletons.
Qed.

(** X6: the records of a document reach the engine in the order of the document,
    with the time in whole seconds, rounded down; the severity and the
    message are the strs of the document, so that the records are those the
    buffer of the engine expects. *)
Theorem parse_otlp_logs_document msg_bytes doc (nanos : LogEntry → Z) :
  loads msg_bytes = Some (encode_logs doc) →
  (∀ r, r ∈ entries_of doc → int_ (le_time r) = Return (nanos r)) →
  parse_otlp_logs msg_bytes
  = map (λ r, RawLog.mk (nanos r `div` 1000000000)
                (Json.Str (le_severity r)) (Json.Str (le_body r)))
      (entries_of doc)
  ∧ map typed_log (parse_otlp_logs msg_bytes)
  = map (λ r, Some (LogRecord.mk (nanos r `div` 1000000000)
                      (le_severity r) (le_body r)))
      (entries_of doc).
Proof.
  intros Hload Htime.
  assert (parse_otlp_logs msg_bytes
  = map (λ r, RawLog.mk (nanos r `div` 1000000000)
                (Json.Str (le_severity r)) (Json.Str (le_body r)))
      (entries_of doc)) as Hparse.
  { unfold parse_otlp_logs. rewrite (extract_logs_encode _ doc Hload).
    rewrite (mapM_Return _ (λ r, RawLog.mk (nanos r `div` 1000000000)
                (Json.Str (le_severity r)) (Json.Str (le_body r)))); [done|].
    intros r Hr. by apply log_record_encode, Htime. }
  split; [done|]. rewrite Hparse, map_map. by apply map_ext.
Qed.

(** X7: one record whose time [int] rejects and the message gives no record at
    all. *)
Theorem parse_otlp_logs_all_or_nothing msg_bytes doc r e :
  loads msg_bytes = Some (encode_logs doc) →
  r ∈ entries_of doc → int_ (le_time r) = Except e →
  parse_otlp_logs msg_bytes = [].
Proof.
  intros Hload Hr Hfail. unfold parse_otlp_logs.
  rewrite (extract_logs_encode _ doc Hload).
  destruct (mapM_Except (λ r, log_record (encode_log_record r)) _ r e Hr) as [e' ->];
    [|done].
  by apply log_record_encode_fails.
Qed.

(** X8: the message of a record is the [stringValue] of its body when that is a
    nonempty str; when the body has none, or an empty one, it is the
    [stringValue] nested under ["value"], and the empty str when there is
    none either.  A record without a severity is an INFO record, one without
    a time is at second 0. *)
Theorem log_record_fallbacks items :
  lookup_key "severityText" items = None →
  lookup_key "timeUnixNano" items = None →
  (∀ b s, lookup_key "body" items = Some (Json.Obj b) →
     lookup_key "stringValue" b = Some (Json.Str s) → s ≠ "" →
     log_record (Json.Obj items)
     = Return (RawLog.mk 0 (Json.Str "INFO") (Json.Str s)))
  ∧ (∀ b v s, lookup_key "body" items = Some (Json.Obj b) →
     lookup_key "stringValue" b = None ∨ lookup_key "stringValue" b = Some (Json.Str "") →
     lookup_key "value" b = Some (Json.Obj v) →
     lookup_key "stringValue" v = Some s →
     log_record (Json.Obj items) = Return (RawLog.mk 0 (Json.Str "INFO") s))
  ∧ (lookup_key "body" items = None →
     log_record (Json.Obj items)
     = Return (RawLog.mk 0 (Json.Str "INFO") (Json.Str ""))).
Proof.
  intros Hsev Htime. unfold log_record. split_and!.
  - intros b s Hb Hs Hne. cbn. rewrite Hb. cbn. rewrite Hs. cbn.
    destruct (String.eqb_spec s ""); [done|]. cbn. by rewrite Hsev, Htime.
  - intros b v s Hb Hs Hv Hvs. cbn. rewrite Hb. cbn.
    destruct Hs as [-> | ->]; cbn; rewrite Hv; cbn; by rewrite Hvs, Hsev, Htime.
  - intros Hb. cbn. rewrite Hb. cbn. by rewrite Hsev, Htime.
Qed.


End Facts.
End OtlpFacts.

(** * More on the engine *)

Section EngineExtras.

Context {Model Producer : Type}.
Context `{!AnomalyDetector Model, !KafkaProducer Producer, !Environment}.

#[local] Abbreviation State := (Engine Model Producer).

(** ** One sample *)

(** X9: the sample is learned by the model of its metric, once, before the alert
    is handled: it is in the registry also when the producer raises; the
    models of the other metrics are not touched. *)
Theorem sample_learned_whatever_the_outcome metric_name value (st : State) :
  let st' := snd (process_metric (metric_name, value) st) in
  detectors st' !! metric_name = Some (learn_one (model_of st metric_name) value)
  ∧ ∀ other, other ≠ metric_name → detectors st' !! other = detectors st !! other.
Proof.
  intros st'. unfold st'. rewrite (proj2 (process_metric_frame metric_name value st)).
  split; [apply lookup_insert_eq|]. intros other Hne. by apply lookup_insert_ne.
Qed.

(** ** The registry of models *)

(** The state after the samples that reach the body of the loop of
    [process_message], one after the other, whatever each one's outcome. *)
Definition after_samples (st : State) (samples : list (string * Q)) : State :=
  fold_left (λ st sample, snd (process_metric sample st)) samples st.

(** X20: the registry keeps one model for each metric name.  Over the samples
    that the engine scores, in any interleaving of the metrics: the scores
    of a metric are those that its model gives on its own when fed the
    values of that metric only, score then learn; afterwards the registry
    holds for the metric the model that has learned exactly those values,
    in order; and a name that the registry has not seen gets the model of
    the constructor call [HalfSpaceTrees(n_trees=10, height=8,
    window_size=200, seed=42)]. *)
Theorem metric_models_isolated metric_name samples (st : State) :
  values_of metric_name (observed_scores st samples)
  = score_then_learn (model_of st metric_name) (values_of metric_name samples)
  ∧ model_of (after_samples st samples) metric_name
    = fold_left learn_one (values_of metric_name samples) (model_of st metric_name)
  ∧ (∀ p : Producer, model_of (initial p) metric_name = HalfSpaceTrees 10 8 200 42).
Proof.
  split_and!.
  - apply observed_scores_isolated.
  - revert st. induction samples as [|[n v] samples IH]; intros st; [done|].
    unfold after_samples in *. cbn [fold_left].
    rewrite IH, model_of_after, values_of_cons.
    by destruct (String.eqb_spec n metric_name) as [->|Hne].
  - intros p. unfold model_of. cbn [initial detectors]. by rewrite lookup_empty.
Qed.

(** A sample whose name matches neither rule of [generate_recommendation]
    leaves the producer as it was, at every score. *)
Lemma unmatched_sample_keeps_producer metric_name value (st : State) :
  latency_rule metric_name = false →
  cpu_rule metric_name = false →
  producer (snd (process_metric (metric_name, value) st)) = producer st.
Proof.
  intros Hl Hc. rewrite process_metric_unfold.
  destruct (Qgtb _ 0.8); [|by destruct (Qgtb _ 0.5)].
  rewrite perform_rca_unfold. by rewrite (generate_none _ _ _ _ _ Hl Hc).
Qed.

(** X10: a metric whose name matches neither rule never reaches the producer.
    In a run in which no sample of the metrics messages has a name with
    [request_time], [latency] or [cpu] in it, the producer is given no
    [send] and no [flush], whatever the scores are and however many alerts
    and root cause analyses the run goes through. *)
Theorem unmatched_metrics_never_publish messages (st : State) :
  (∀ message metric_name v,
     message ∈ messages →
     topic message = "telemetry-metrics" →
     (metric_name, v) ∈ parse_otlp_metrics (value message) →
     latency_rule metric_name = false ∧ cpu_rule metric_name = false) →
  producer (snd (main_loop messages st)) = producer st.
Proof.
  unfold main_loop. revert st.
  induction messages as [|m ms IH]; intros st Hnames; [done|].
  assert (producer (snd (process_message m st)) = producer st) as Hm.
  { unfold process_message.
    destruct (String.eqb_spec (topic m) "telemetry-metrics") as [Ht|Ht].
    - assert (∀ n v, (n, v) ∈ parse_otlp_metrics (value m) →
                latency_rule n = false ∧ cpu_rule n = false) as Hm.
      { intros n v Hin. apply (Hnames m n v); [left | done | done]. }
      revert Hm. generalize (parse_otlp_metrics (value m)). intros metrics.
      revert st. induction metrics as [|[n v] metrics IHm]; intros st Hm; [done|].
      rewrite for_each_cons.
      destruct (Hm n v) as [Hl Hc]; [left|].
      pose proof (unmatched_sample_keeps_producer n v st Hl Hc) as Hp.
      destruct (process_metric (n, v) st) as [[[]|e] st1]; [|done].
      cbn [snd] in Hp. rewrite <- Hp. apply IHm.
      intros n' v' Hin. apply (Hm n' v'). by right.
    - destruct (String.eqb (topic m) "telemetry-logs"); [|done].
      by rewrite append_logs_unfold. }
  rewrite for_each_cons.
  destruct (process_message m st) as [[[]|e] st1]; [|done].
  cbn [snd] in Hm. rewrite <- Hm. apply IH.
  intros m' n v Hin. apply Hnames. by right.
Qed.

(** ** The scan of the buffer, as printed *)



(** ** A run *)

(** The records that a sequence of messages brings: those of the messages
    of the logs topic, in order. *)
Definition arrived (messages : list Message) : list LogRecord.t :=
  flat_map (λ message,
    if String.eqb (topic message) "telemetry-logs"
    then parse_otlp_logs (value message) else []) messages.

Lemma process_message_log_buffer message (st : State) :
  log_buffer (snd (process_message message st))
  = fold_left (deque_append LOG_BUFFER_SIZE) (arrived [message]) (log_buffer st).
Proof.
  unfold arrived. cbn [flat_map]. rewrite app_nil_r. unfold process_message.
  destruct (String.eqb_spec (topic message) "telemetry-metrics") as [Ht|Ht].
  - rewrite Ht. cbn. apply process_metrics_log_buffer.
  - destruct (String.eqb (topic message) "telemetry-logs"); [|done].
    by rewrite append_logs_unfold.
Qed.

(** X12: after a run that does not raise, the buffer holds the last 1000 of the
    records that arrived on the logs topic, in the order of arrival, however
    the logs messages were interleaved with metrics messages. *)
Theorem log_buffer_after_run (p : Producer) messages :
  fst (main_loop messages (initial p)) = Ok () →
  log_buffer (snd (main_loop messages (initial p)))
  = drop (length (arrived messages) - LOG_BUFFER_SIZE) (arrived messages).
Proof.
  intros Hok.
  assert (∀ (st : State), fst (main_loop messages st) = Ok () →
            log_buffer (snd (main_loop messages st))
            = fold_left (deque_append LOG_BUFFER_SIZE) (arrived messages)
                (log_buffer st)) as Hrun.
  { clear. induction messages as [|m ms IH]; intros st Hok; [done|].
    unfold main_loop in *. rewrite for_each_cons in *.
    pose proof (process_message_log_buffer m st) as Hm.
    destruct (process_message m st) as [[[]|e] st1]; [|done]. cbn in Hm.
    rewrite (IH st1 Hok), Hm. unfold arrived. cbn [flat_map].
    by rewrite app_nil_r, fold_left_app. }
  rewrite (Hrun _ Hok). cbn [initial log_buffer].
  by rewrite deque_appends by (cbn; lia).
Qed.

(** X13: a message of another topic changes nothing: a run is the run of its
    metrics and logs messages. *)
Theorem other_topics_are_ignored messages (st : State) :
  main_loop messages st
  = main_loop
      (List.filter (λ message,
         String.eqb (topic message) "telemetry-metrics"
         || String.eqb (topic message) "telemetry-logs") messages) st.
Proof.
  unfold main_loop. revert st. induction messages as [|m ms IH]; intros st; [done|].
  cbn [List.filter].
  destruct (String.eqb (topic m) "telemetry-metrics") eqn:Hm; cbn [orb].
  - rewrite !for_each_cons. destruct (process_message m st) as [[[]|e] st1]; auto.
  - destruct (String.eqb (topic m) "telemetry-logs") eqn:Hl.
    + rewrite !for_each_cons. destruct (process_message m st) as [[[]|e] st1]; auto.
    + rewrite for_each_cons. unfold process_message at 1. rewrite Hm, Hl. apply IH.
Qed.

(** X14: whatever the run, and also when it raises: what was printed stays
    printed, the clock does not go back, and no model leaves the registry. *)
Theorem run_only_adds messages (st : State) :
  let st' := snd (main_loop messages st) in
  (∃ out, stdout st' = stdout st ++ out)
  ∧ clock st ≤ clock st'
  ∧ dom (detectors st) ⊆ dom (detectors st').
Proof.
  cbn zeta. unfold main_loop.
  apply (for_each_invariant (λ st' : State,
    (∃ out, stdout st' = stdout st ++ out) ∧ clock st ≤ clock st'
    ∧ dom (detectors st) ⊆ dom (detectors st'))).
  - intros m st0 Hst0. unfold process_message.
    destruct (String.eqb (topic m) "telemetry-metrics").
    + revert Hst0. apply (for_each_invariant (λ st' : State,
        (∃ out, stdout st' = stdout st ++ out) ∧ clock st ≤ clock st'
        ∧ dom (detectors st) ⊆ dom (detectors st'))).
      intros [n v] st1 ([out Hout] & Hclock & Hdom).
      rewrite (proj2 (process_metric_frame n v st1)), dom_insert.
      rewrite process_metric_unfold.
      destruct (Qgtb _ 0.8).
      * destruct (perform_rca_observed n v
          (with_line (learned st1 n v)
             (AlertLine n v (score_one (model_of st1 n) v)))) as [[rest Hr] Hc].
        split_and!.
        -- eexists. rewrite Hr. cbn. rewrite Hout, <- !app_assoc. reflexivity.
        -- rewrite Hc. cbn. lia.
        -- set_solver.
      * destruct (Qgtb _ 0.5); cbn; (split_and!; [|done|set_solver]).
        -- eexists. rewrite Hout, <- app_assoc. reflexivity.
        -- by exists out.
    + destruct (String.eqb (topic m) "telemetry-logs"); [|done].
      by rewrite append_logs_unfold.
  - split_and!; [by exists []; rewrite app_nil_r | done | done].
Qed.

(** X15: while no score is over 0.8 the engine does not read the clock and
    does not call the producer, however the run ends. *)
Theorem no_alert_no_publish :
  (∀ (model : Model) v, (score_one model v <= 0.8)%Q) →
  ∀ messages (st : State),
    producer (snd (main_loop messages st)) = producer st
    ∧ clock (snd (main_loop messages st)) = clock st.
Proof.
  intros Hcalm messages st. unfold main_loop.
  apply (for_each_invariant (λ st' : State,
    producer st' = producer st ∧ clock st' = clock st)); [|done].
  intros m st0 Hst0. unfold process_message.
  destruct (String.eqb (topic m) "telemetry-metrics").
  - revert Hst0. apply (for_each_invariant (λ st' : State,
      producer st' = producer st ∧ clock st' = clock st)).
    intros [n v] st1 Hst1. rewrite process_metric_unfold.
    rewrite (proj2 (Qgtb_false _ _) (Hcalm _ _)).
    by destruct (Qgtb _ 0.5).
  - destruct (String.eqb (topic m) "telemetry-logs"); [|done].
    by rewrite append_logs_unfold.
Qed.

End EngineExtras.

(** * The log aggregation pipeline: [ai-engine/log_aggregator.py] *)

Module LogAggregator.
Import Py.

(** An [INSERT INTO table (columns) VALUES] statement. *)
Record Insert := mkInsert { table : string; columns : list string }.

(** What the pipeline prints on [stderr]. *)
Inductive ErrLine :=
| ParseErrorLine (e : PyError)
| InsertErrorLine (e : PyError).

(** The ClickHouse client and [datetime.fromtimestamp]: both may raise.  A
    row is a tuple of cells. *)
Class ClickHouse (Client Datetime : Type) := {
  fromtimestamp : Json.t → Try Datetime;
  execute : Client → Insert → list (Datetime + Json.t) → Try unit * Client }.

(** The state of the module: the client and what was printed. *)
Record Pipeline (Client : Type) := mkPipeline {
  ch_client : Client;
  stderr : list ErrLine }.
Arguments mkPipeline {Client}.
Arguments ch_client {Client}.
Arguments stderr {Client}.

(** A statement of the pipeline: it returns or raises, and leaves a state. *)
Definition Run (St A : Type) : Type := St → Try A * St.

#[global] Instance Run_ret {St} : MRet (Run St) := λ A a st, (Return a, st).

#[global] Instance Run_bind {St} : MBind (Run St) := λ A B f m st,
  match m st with
  | (Return a, st') => f a st'
  | (Except e, st') => (Except e, st')
  end.

(** [for message in consumer: body(message)], where the body may [continue]. *)
Fixpoint for_messages {St A} (l : list A) (body : A → Run St unit) : Run St unit :=
  match l with
  | [] => mret ()
  | x :: l' => body x ;; for_messages l' body
  end.

Section Pipeline.

Context {Client Datetime : Type}.
Context `{!Conversions, !ClickHouse Client Datetime}.

#[local] Abbreviation State := (Pipeline Client).

Definition print_stderr (l : ErrLine) : Run State unit := λ st,
  (Return (), mkPipeline (ch_client st) (stderr st ++ [l])).

Definition parse_log_entry (msg_bytes : string) : Run State Json.t :=
  match loads_ msg_bytes with
  | Return data => mret data
  | Except e => print_stderr (ParseErrorLine e) ;; mret Json.Null
  end.

Definition access_insert : Insert :=
  mkInsert "access_logs"
    ["timestamp"; "instance_id"; "remote_addr"; "request_method";
     "request_uri"; "status"; "body_bytes_sent"; "request_time";
     "user_agent"; "referer"].

Definition error_insert : Insert :=
  mkInsert "error_logs" ["timestamp"; "instance_id"; "level"; "message"].

(** The tuple of [insert_access_log], evaluated left to right. *)
Definition access_row (entry : Json.t) : Try (list (Datetime + Json.t)) :=
  timestamp ← get entry "timestamp" (Json.Int 0) ≫= fromtimestamp;
  instance_id ← get entry "instance_id" (Json.Str "unknown");
  remote_addr ← get entry "remote_addr" (Json.Str "");
  request_method ← get entry "request_method" (Json.Str "");
  request_uri ← get entry "request_uri" (Json.Str "");
  status ← get entry "status" (Json.Int 0);
  body_bytes_sent ← get entry "body_bytes_sent" (Json.Int 0);
  request_time ← get entry "request_time" (Json.Float 0);
  user_agent ← get entry "user_agent" (Json.Str "");
  referer ← get entry "referer" (Json.Str "");
  Return [inl timestamp; inr instance_id; inr remote_addr; inr request_method;
          inr request_uri; inr status; inr body_bytes_sent; inr request_time;
          inr user_agent; inr referer].

(** The tuple of [insert_error_log]. *)
Definition error_row (entry : Json.t) : Try (list (Datetime + Json.t)) :=
  timestamp ← get entry "timestamp" (Json.Int 0) ≫= fromtimestamp;
  instance_id ← get entry "instance_id" (Json.Str "unknown");
  level ← get entry "level" (Json.Str "error");
  content ← get entry "content" (Json.Str "");
  Return [inl timestamp; inr instance_id; inr level; inr content].

(** [try: ch_client.execute(statement, [row]) / except Exception as e: print] *)
Definition insert (statement : Insert) (row : Try (list (Datetime + Json.t)))
    : Run State unit := λ st,
  match row with
  | Except e => print_stderr (InsertErrorLine e) st
  | Return row =>
      match execute (ch_client st) statement row with
      | (Return _, client) => (Return (), mkPipeline client (stderr st))
      | (Except e, client) =>
          print_stderr (InsertErrorLine e) (mkPipeline client (stderr st))
      end
  end.

Definition insert_access_log (entry : Json.t) : Run State unit :=
  insert access_insert (access_row entry).

Definition insert_error_log (entry : Json.t) : Run State unit :=
  insert error_insert (error_row entry).

(** [x == s] for a str [s]. *)
Definition eq_str (x : Json.t) (s : string) : bool :=
  match x with
  | Json.Str s' => String.eqb s' s
  | _ => false
  end.

(** The body of the loop of [main]. *)
Definition handle (msg_bytes : string) : Run State unit :=
  entry ← parse_log_entry msg_bytes;
  if negb (truthy entry) then mret ()
  else
    log_type ← (λ st, (get entry "log_type" (Json.Str "access"), st));
    if eq_str log_type "access" then insert_access_log entry
    else if eq_str log_type "error" then insert_error_log entry
    else mret ().

(** The loop of [main] over the payloads of the messages. *)
Definition main_loop (messages : list string) : Run State unit :=
  for_messages messages handle.

End Pipeline.

(** ** Properties *)

Section PipelineFacts.

Context {Client Datetime : Type}.
Context `{!Conversions, !ClickHouse Client Datetime}.

#[local] Abbreviation State := (Pipeline Client).

Lemma for_messages_cons {St A} (x : A) l (body : A → Run St unit) (st : St) :
  for_messages (x :: l) body st =
  match body x st with
  | (Return _, st') => for_messages l body st'
  | (Except e, st') => (Except e, st')
  end.
Proof. reflexivity. Qed.


(** X16: the rows have one value for each column of their statement. *)
Theorem rows_match_columns entry :
  (∀ row, access_row entry = Return row →
     length row = length (columns access_insert))
  ∧ (∀ row, error_row entry = Return row →
     length row = length (columns error_insert)).
Proof.
  split; intros row; unfold access_row, error_row;
    destruct entry as [| | | | | |items]; try done; cbn;
    destruct (fromtimestamp _); cbn; by intros [= <-].
Qed.


(** X18: a payload that decodes to a truthy value that is not a dict (a nonempty
    list, a number, a str) raises [AttributeError] out of the loop: the
    messages after it are not handled, and nothing is printed. *)
Theorem pipeline_stops_on_non_dict msg_bytes messages data (st : State) :
  loads msg_bytes = Some data → truthy data = true →
  (∀ items, data ≠ Json.Obj items) →
  main_loop (msg_bytes :: messages) st = (Except AttributeError, st).
Proof.
  intros Hload Ht Hdata. unfold main_loop. rewrite for_messages_cons.
  unfold handle, parse_log_entry, loads_. rewrite Hload.
  unfold mbind, mret, Run_bind, Run_ret. cbv beta iota. rewrite Ht. cbn.
  destruct data as [|b|n|x|s|l'|items]; try reflexivity.
  by destruct (Hdata items).
Qed.

(** X19: an entry without a [log_type] is an access log; the [log_type] "error"
    selects the other table; an entry of any other type, an empty dict and a
    payload that does not decode reach no table. *)
Theorem pipeline_dispatch msg_bytes (st : State) :
  (∀ items, loads msg_bytes = Some (Json.Obj items) → items ≠ [] →
     (lookup_key "log_type" items = None
      ∨ lookup_key "log_type" items = Some (Json.Str "access") →
      handle msg_bytes st = insert_access_log (Json.Obj items) st)
     ∧ (lookup_key "log_type" items = Some (Json.Str "error") →
        handle msg_bytes st = insert_error_log (Json.Obj items) st)
     ∧ (∀ other, lookup_key "log_type" items = Some other →
        eq_str other "access" = false → eq_str other "error" = false →
        handle msg_bytes st = (Return (), st)))
  ∧ (loads msg_bytes = Some (Json.Obj []) → handle msg_bytes st = (Return (), st))
  ∧ (loads msg_bytes = None →
     handle msg_bytes st
     = (Return (), mkPipeline (ch_client st)
                     (stderr st ++ [ParseErrorLine JSONDecodeError]))).
Proof.
  unfold handle, parse_log_entry, loads_. split_and!.
  - intros items -> Hne.
    assert (truthy (Json.Obj items) = true) as Ht.
    { cbn. by rewrite bool_decide_eq_false_2. }
    unfold mbind, mret, Run_bind, Run_ret. cbv beta iota. rewrite Ht.
    cbn [negb get fst snd]. split_and!.
    + intros Hk. by destruct Hk as [-> | ->].
    + intros Hk. by rewrite Hk.
    + intros other Hk Ha He. rewrite Hk. cbn. by rewrite Ha, He.
  - by intros ->.
  - by intros ->.
Qed.

End PipelineFacts.

End LogAggregator.

(** * Runs of the adapters, of the engine and of the pipeline *)

Module Examples.
Import Py Otlp OtlpFacts.

(** ** Documents *)

Definition metrics_doc : list (list (list Metric)) :=
  [[[mkMetric (Json.Str "nginx_request_time_ms") GaugeKind
       [Json.Obj [("asDouble", Json.Float 450)];
        Json.Obj [("asInt", Json.Str "7")]]];
    [mkMetric (Json.Str "node_cpu_usage") SumKind
       [Json.Obj [("asInt", Json.Int 95)]]]]].

(** The same document with one reading that is not a number. *)
Definition bad_point : Json.t := Json.Obj [("asInt", Json.Str "n/a")].

Definition bad_metric : Metric :=
  mkMetric (Json.Str "node_cpu_usage") SumKind [Json.Obj [("asInt", Json.Int 95)]; bad_point].

Definition bad_metrics_doc : list (list (list Metric)) :=
  [[[mkMetric (Json.Str "nginx_request_time_ms") GaugeKind
       [Json.Obj [("asDouble", Json.Float 450)]]];
    [bad_metric]]].

Definition logs_doc : list (list (list LogEntry)) :=
  [[[mkLogEntry (Json.Str "1700000000123456789") "ERROR" "disk full";
     mkLogEntry (Json.Int 2500000000) "INFO" ""]]].

Definition bad_entry : LogEntry := mkLogEntry Json.Null "ERROR" "oom".

Definition bad_logs_doc : list (list (list LogEntry)) :=
  [[[mkLogEntry (Json.Int 2500000000) "INFO" "ok"; bad_entry]]].

Definition access_entry : list (string * Json.t) :=
  [("remote_addr", Json.Str "10.0.0.7"); ("status", Json.Int 200)].

(** The conversions on the strs of these documents, and the payloads that
    decode to them. *)
Definition conversions : Conversions :=
  {| float_of_str s :=
       if String.eqb s "7" then Some (Finite 7)
       else if String.eqb s "inf" then Some PosInf
       else None;
     int_of_str s :=
       if String.eqb s "1700000000123456789" then Some 1700000000123456789%Z
       else None;
     loads s :=
       if String.eqb s "metrics" then Some (encode_metrics metrics_doc)
       else if String.eqb s "bad metrics" then Some (encode_metrics bad_metrics_doc)
       else if String.eqb s "logs" then Some (encode_logs logs_doc)
       else if String.eqb s "bad logs" then Some (encode_logs bad_logs_doc)
       else if String.eqb s "[1]" then Some (Json.Arr [Json.Int 1])
       else if String.eqb s "{}" then Some (Json.Obj [])
       else if String.eqb s "access" then Some (Json.Obj access_entry)
       else None |}.

(** Membership in a list that is written out. *)
Ltac each_member H :=
  cbn in H;
  repeat (apply elem_of_cons in H as [->|H]);
  try (by apply not_elem_of_nil in H).

Lemma parse_otlp_metrics_document_witness :
  @parse_otlp_metrics conversions "metrics"
  = [(Json.Str "nginx_request_time_ms", Finite 450);
     (Json.Str "nginx_request_time_ms", Finite 7);
     (Json.Str "node_cpu_usage", Finite (inject_Z 95))].
Proof.
  apply (@parse_otlp_metrics_document conversions "metrics" metrics_doc
           (λ dp, try_except (@datapoint_value conversions dp) NaN)).
  - reflexivity.
  - intros m dp Hm Hdp. unfold metrics_of, metrics_doc in Hm.
    each_member Hm; each_member Hdp; reflexivity.
Defined.

Lemma parse_otlp_metrics_all_or_nothing_witness :
  @parse_otlp_metrics conversions "bad metrics" = [].
Proof.
  apply (@parse_otlp_metrics_all_or_nothing conversions "bad metrics"
           bad_metrics_doc bad_metric bad_point ValueError).
  - reflexivity.
  - unfold metrics_of, bad_metrics_doc. cbn. apply list_elem_of_further, list_elem_of_here.
  - cbn. apply list_elem_of_further, list_elem_of_here.
  - reflexivity.
Defined.


(** A metric with both kinds, and a histogram. *)
Definition both_kinds : list (string * Json.t) :=
  [("name", Json.Str "m"); ("gauge", Json.Obj []);
   ("sum", Json.Obj [("dataPoints", Json.Arr [bad_point])])].

Definition histogram : list (string * Json.t) :=
  [("name", Json.Str "latency_histogram");
   ("histogram", Json.Obj [("dataPoints", Json.Arr [bad_point])])].

Lemma datapoints_by_kind_witness :
  datapoints (Json.Obj both_kinds) = Return (Json.Arr [bad_point])
  ∧ @metric_samples conversions (Json.Obj histogram) = Return [].
Proof.
  split.
  - exact (proj1 (@datapoints_by_kind conversions both_kinds)
             (Json.Obj [("dataPoints", Json.Arr [bad_point])]) eq_refl).
  - exact (proj2 (proj2 (proj2 (@datapoints_by_kind conversions histogram))
                    eq_refl eq_refl)
             (Json.Str "latency_histogram") eq_refl).
Defined.

Lemma adapters_return_empty_witness :
  (@parse_otlp_metrics conversions "not json" = []
   ∧ @parse_otlp_logs conversions "not json" = [])
  ∧ (@parse_otlp_metrics conversions "[1]" = []
     ∧ @parse_otlp_logs conversions "[1]" = [])
  ∧ @parse_otlp_metrics conversions "logs" = [].
Proof.
  split; [|split].
  - apply (proj1 (@adapters_return_empty conversions "not json")). reflexivity.
  - apply (proj1 (proj2 (@adapters_return_empty conversions "[1]"))
             (Json.Arr [Json.Int 1])); [reflexivity | discriminate].
  - apply (proj2 (proj2 (@adapters_return_empty conversions "logs")) _ eq_refl).
    reflexivity.
Defined.

Lemma parse_otlp_logs_document_witness :
  @parse_otlp_logs conversions "logs"
  = [RawLog.mk 1700000000 (Json.Str "ERROR") (Json.Str "disk full");
     RawLog.mk 2 (Json.Str "INFO") (Json.Str "")].
Proof.
  apply (@parse_otlp_logs_document conversions "logs" logs_doc
           (λ r, try_except (@int_ conversions (le_time r)) 0%Z)).
  - reflexivity.
  - intros r Hr. unfold entries_of, logs_doc in Hr. each_member Hr; reflexivity.
Defined.

Lemma parse_otlp_logs_all_or_nothing_witness :
  @parse_otlp_logs conversions "bad logs" = [].
Proof.
  apply (@parse_otlp_logs_all_or_nothing conversions "bad logs" bad_logs_doc
           bad_entry TypeError).
  - reflexivity.
  - unfold entries_of, bad_logs_doc. cbn. apply list_elem_of_further, list_elem_of_here.
  - reflexivity.
Defined.

(** A record whose text is nested under ["value"]. *)
Definition nested_body : list (string * Json.t) :=
  [("body", Json.Obj [("value", Json.Obj [("stringValue", Json.Str "nested")])])].


Lemma log_record_fallbacks_witness :
  @log_record conversions (Json.Obj nested_body)
  = Return (RawLog.mk 0 (Json.Str "INFO") (Json.Str "nested")).
Proof.
  apply (proj1 (proj2 (@log_record_fallbacks conversions nested_body eq_refl eq_refl))
           [("value", Json.Obj [("stringValue", Json.Str "nested")])]
           [("stringValue", Json.Str "nested")] (Json.Str "nested"));
    [reflexivity | by left | reflexivity | reflexivity].
Defined.

(** ** The engine *)

Import Scenario.

(** A detector that never raises its score. *)
Definition calm_detector : AnomalyDetector unit :=
  {| HalfSpaceTrees _ _ _ _ := (); score_one _ _ := 0%Q; learn_one m _ := m |}.

Lemma sample_learned_whatever_the_outcome_witness :
  detectors (snd (@process_metric unit _ echo_detector broker_down adapter
                    ("node_cpu_usage", 0.95%Q) start)) !! "nginx_request_time_ms"
  = None.
Proof.
  apply (proj2 (@sample_learned_whatever_the_outcome unit _ echo_detector
                  broker_down adapter "node_cpu_usage" 0.95%Q start)).
  discriminate.
Defined.

Lemma unmatched_metrics_never_publish_witness :
  producer (snd (@main_loop unit _ echo_detector broker_up disk_adapter
                   [metrics_message; logs_message; metrics_message] start)) = [].
Proof.
  apply (@unmatched_metrics_never_publish unit _ echo_detector broker_up disk_adapter
           [metrics_message; logs_message; metrics_message] start).
  intros message n v _ _ Hin. cbn in Hin.
  apply elem_of_cons in Hin as [[= -> ->]|Hin]; [by vm_compute|].
  apply elem_of_cons in Hin as [[= -> ->]|Hin]; [by vm_compute|].
  by apply not_elem_of_nil in Hin.
Defined.


Lemma log_buffer_after_run_witness :
  log_buffer (snd (@main_loop unit _ echo_detector broker_up adapter
                     [logs_message; metrics_message; logs_message] (initial [])))
  = [LogRecord.mk 0 "ERROR" "upstream timed out";
     LogRecord.mk 0 "ERROR" "upstream timed out"].
Proof.
  apply (@log_buffer_after_run unit _ echo_detector broker_up adapter []
           [logs_message; metrics_message; logs_message]).
  reflexivity.
Defined.

Lemma no_alert_no_publish_witness :
  producer (snd (@main_loop unit _ calm_detector broker_down adapter
         [metrics_message; logs_message; metrics_message] start)) = []
  ∧ clock (snd (@main_loop unit _ calm_detector broker_down adapter
         [metrics_message; logs_message; metrics_message] start)) = 0.
Proof.
  apply (@no_alert_no_publish unit _ calm_detector broker_down adapter).
  intros model v. by vm_compute.
Defined.

(** ** The pipeline *)

Import LogAggregator.

(** A client whose server is away: every [execute] raises. *)
Definition server_down : ClickHouse (list Insert) Z :=
  {| fromtimestamp t := @int_ conversions t;
     execute client statement row := (Except ValueError, client ++ [statement]) |}.

Definition idle : Pipeline (list Insert) := mkPipeline [] [].

Lemma rows_match_columns_witness :
  ∃ row, @access_row (list Insert) Z server_down (Json.Obj access_entry) = Return row
         ∧ length row = 10.
Proof.
  eexists. split; [reflexivity|].
  apply (proj1 (@rows_match_columns (list Insert) Z server_down (Json.Obj access_entry))).
  reflexivity.
Defined.


Lemma pipeline_stops_on_non_dict_witness :
  @LogAggregator.main_loop (list Insert) Z conversions server_down
    ["[1]"; "access"] idle = (Except AttributeError, idle).
Proof.
  apply (@pipeline_stops_on_non_dict (list Insert) Z conversions server_down
           "[1]" ["access"] (Json.Arr [Json.Int 1]) idle);
    [reflexivity | reflexivity | discriminate].
Defined.

Lemma pipeline_dispatch_witness :
  @handle (list Insert) Z conversions server_down "access" idle
  = @insert_access_log (list Insert) Z server_down (Json.Obj access_entry) idle
  ∧ @handle (list Insert) Z conversions server_down "{}" idle = (Return (), idle).
Proof.
  destruct (@pipeline_dispatch (list Insert) Z conversions server_down "access" idle)
    as (Hdict & _ & _).
  destruct (@pipeline_dispatch (list Insert) Z conversions server_down "{}" idle)
    as (_ & Hempty & _).
  split.
  - apply (proj1 (Hdict access_entry eq_refl ltac:(discriminate))). by left.
  - apply Hempty. reflexivity.
Defined.

End Examples.
